(** * prime.js: the [Switch] class of the prime-indicator shell extension

    A shallow embedding of [src/prime.js].  The class shells out to helper
    programs ([which], [prime-select], [nvidia-smi], [nvidia-settings],
    [pkexec]/[gksudo]) through [Gio.Subprocess] and watches one file through
    a [Gio.FileMonitor].  Everything outside the class (the processes, the
    journal, the file monitor, the signal listeners, the functions handed in
    as callbacks) is the _world_: an oracle [System] answers each spawn, and
    every effect the class has on the outside is appended to a trace. *)

From Stdlib Require Import String Ascii List ZArith Bool Arith Lia.
From Equations Require Import Equations.
From Equations.Prop Require Import Logic.
Import ListNotations.

Local Open Scope string_scope.

(** ** JavaScript strings and values *)

Module Js.

(** The characters [String.prototype.trim] strips, restricted to the ASCII
    range the strings of this model live in: TAB, LF, VT, FF, CR, SPACE. *)
Definition is_space (c : ascii) : bool :=
  let n := nat_of_ascii c in
  ((9 <=? n)%nat && (n <=? 13)%nat) || (n =? 32)%nat.

Fixpoint trim_start (s : string) : string :=
  match s with
  | EmptyString => EmptyString
  | String c r => if is_space c then trim_start r else s
  end.

Fixpoint trim_end (s : string) : string :=
  match s with
  | EmptyString => EmptyString
  | String c r =>
      match trim_end r with
      | EmptyString => if is_space c then EmptyString else String c EmptyString
      | r' => String c r'
      end
  end.

(** [s.trim()] *)
Definition trim (s : string) : string := trim_end (trim_start s).

(** [s.split(sep)] for a one-character separator: consecutive separators
    give empty fields, and the empty string splits into one empty field. *)
Fixpoint split (sep : ascii) (s : string) : list string :=
  match s with
  | EmptyString => [EmptyString]
  | String c r =>
      if Ascii.eqb c sep then EmptyString :: split sep r
      else match split sep r with
           | h :: t => String c h :: t
           | [] => [String c EmptyString]
           end
  end.

(** Truthiness of a string: every string but the empty one. *)
Definition truthy_string (s : string) : bool :=
  match s with
  | EmptyString => false
  | String _ _ => true
  end.

(** [a || b] on strings. *)
Definition or (a b : string) : string := if truthy_string a then a else b.

(** The values a property read on the helper table can produce: a string
    stored by the constructor, [null], [undefined], or a member that the
    object literal inherits from [Object.prototype]. *)
Inductive value : Type :=
| Null
| Undefined
| Str (s : string)
| Builtin (name : string).

Definition truthy (v : value) : bool :=
  match v with
  | Null | Undefined => false
  | Str s => truthy_string s
  | Builtin _ => true
  end.

(** The property names every object literal inherits from
    [Object.prototype] (ECMAScript, annex B included). *)
Definition Object_prototype : list string :=
  [ "constructor"; "__defineGetter__"; "__defineSetter__"; "hasOwnProperty";
    "__lookupGetter__"; "__lookupSetter__"; "isPrototypeOf";
    "propertyIsEnumerable"; "toString"; "valueOf"; "__proto__";
    "toLocaleString" ].

Definition inherited (name : string) : bool :=
  existsb (String.eqb name) Object_prototype.

(** [v + ''], the string a value turns into when it is concatenated.  The
    class only ever concatenates own properties of the helper table, which
    are strings; the other cases are given for completeness. *)
Definition to_string (v : value) : string :=
  match v with
  | Null => "null"
  | Undefined => "undefined"
  | Str s => s
  | Builtin name =>
      if String.eqb name "__proto__" then "[object Object]"
      else "function " ++ name ++ "() { [native code] }"
  end.

End Js.

(** ** The world outside the class *)

(** What one [Gio.Subprocess] does: construction, [init] or
    [communicate_utf8] raises an error whose [toString()] is [msg], or the
    child runs to its end. *)
Inductive outcome : Type :=
| Threw (msg : string)
| Exited (status : Z) (stdout stderr : string).

(** The oracle.  [run n argv] is what the [n]-th spawn of the session does
    when it is run synchronously with argument vector [argv]; [launch n argv]
    is [Some msg] when starting it asynchronously raises [msg], and [None]
    when the child is started.  Both depend on [n], so a helper may answer
    differently each time it is run. *)
Record System : Type := {
  run : nat -> list string -> outcome;
  launch : nat -> list string -> option string;
}.

(** The object [_shell_exec] returns and the async callbacks receive. *)
Record result : Type := {
  status : Z;
  stdin : string;
  stdout : string;
  stderr : string;
}.

(** A function of the embedding application, known by an identifier. *)
Definition extfun : Type := nat.

(** The functions that reach [_shell_exec_async] as [callback]: the closure
    [switch] builds around its own [gpu] and [callback] arguments, or a
    function of the caller. *)
Inductive callback : Type :=
| SwitchDone (gpu : string) (callback : option extfun)
| External (f : extfun).

(** The argument of a call into the application. *)
Inductive argument : Type :=
| OfResult (e : result)
| OfSwitch (gpu : string) (result : bool).

Definition handle : Type := nat.

Inductive event : Type :=
| Spawn (argv : list string)          (* new Gio.Subprocess, communicate_utf8 *)
| SpawnAsync (argv : list string)     (* new Gio.Subprocess, communicate_utf8_async *)
| Journal (tag message : string)      (* Log.journal(tag, message) *)
| Called (f : extfun) (arg : argument)          (* f.call(this, arg) *)
| Emitted (signal : string) (value : string)    (* this.emit(signal, value) *)
| Watched (h : handle) (path : string)          (* monitor_file on path *)
| Connected (h : handle) (signal : string)      (* h.connect(signal, ...) *)
| Cancelled (h : handle).                       (* h.cancel() *)

(** A child started by [_shell_exec_async] whose completion has not been
    delivered yet. *)
Record task : Type := {
  task_id : nat;
  task_stdin : string;
  task_callback : option callback;
}.

Record World : Type := {
  clock : nat;                (* spawns so far *)
  trace : list event;         (* effects so far, oldest first *)
  pending : list task;        (* children in flight *)
  next_task : nat;
  active : list handle;       (* file monitors created and not cancelled *)
  next_handle : handle;
}.

Definition boot : World :=
  {| clock := 0; trace := []; pending := []; next_task := 0;
     active := []; next_handle := 0 |}.

(** State passing over the world, for the code that does not touch [this]. *)
Definition IO (A : Type) : Type := World -> A * World.

Definition ret {A : Type} (a : A) : IO A := fun w => (a, w).

Definition bind {A B : Type} (m : IO A) (k : A -> IO B) : IO B :=
  fun w => let (a, w') := m w in k a w'.

Notation "x <- m ;; k" := (bind m (fun x => k))
  (at level 61, m at next level, right associativity).
Notation "m ;;; k" := (bind m (fun _ => k))
  (at level 61, right associativity).

Definition record (e : event) : IO unit :=
  fun w =>
    (tt, {| clock := clock w; trace := trace w ++ [e]; pending := pending w;
            next_task := next_task w; active := active w;
            next_handle := next_handle w |}).

(** A spawn: the event is recorded and the clock advances. *)
Definition spawned (e : event) : IO nat :=
  fun w =>
    (clock w, {| clock := S (clock w); trace := trace w ++ [e];
                 pending := pending w; next_task := next_task w;
                 active := active w; next_handle := next_handle w |}).

Definition enqueue (command : string) (cb : option callback) : IO unit :=
  fun w =>
    (tt, {| clock := clock w; trace := trace w;
            pending := pending w ++
                       [{| task_id := next_task w; task_stdin := command;
                           task_callback := cb |}];
            next_task := S (next_task w); active := active w;
            next_handle := next_handle w |}).

Definition dequeue (id : nat) : IO (option task) :=
  fun w =>
    (find (fun t => Nat.eqb (task_id t) id) (pending w),
     {| clock := clock w; trace := trace w;
        pending := filter (fun t => negb (Nat.eqb (task_id t) id)) (pending w);
        next_task := next_task w; active := active w;
        next_handle := next_handle w |}).

Definition watch (path : string) : IO handle :=
  fun w =>
    (next_handle w,
     {| clock := clock w; trace := trace w ++ [Watched (next_handle w) path];
        pending := pending w; next_task := next_task w;
        active := next_handle w :: active w;
        next_handle := S (next_handle w) |}).

Definition cancel (h : handle) : IO unit :=
  fun w =>
    (tt, {| clock := clock w; trace := trace w ++ [Cancelled h];
            pending := pending w; next_task := next_task w;
            active := filter (fun h' => negb (Nat.eqb h' h)) (active w);
            next_handle := next_handle w |}).

(** ** The class *)

(** The object literal the constructor stores in [this._commands]: exactly
    these four own properties, each the string [_which] returned. *)
Record Commands : Type := {
  sudo : string;
  select : string;
  management : string;
  settings_ui : string;        (* the property named settings *)
}.

Record Switch : Type := {
  _commands : Commands;
  _gpu : option string;        (* null, or the memoized string *)
  _listener : option handle;   (* null, or the Gio.FileMonitor *)
}.

Definition set_gpu (this : Switch) (g : string) : Switch :=
  {| _commands := _commands this; _gpu := Some g;
     _listener := _listener this |}.

Definition set_listener (this : Switch) (l : option handle) : Switch :=
  {| _commands := _commands this; _gpu := _gpu this; _listener := l |}.

(** [this._commands[cmd]] when [cmd] is an own property. *)
Definition own (c : Commands) (cmd : string) : option string :=
  if String.eqb cmd "sudo" then Some (sudo c)
  else if String.eqb cmd "select" then Some (select c)
  else if String.eqb cmd "management" then Some (management c)
  else if String.eqb cmd "settings" then Some (settings_ui c)
  else None.

(** [cmd in this._commands]: own properties and, as the [in] operator walks
    the prototype chain, the members of [Object.prototype]. *)
Definition has_property (c : Commands) (cmd : string) : bool :=
  match own c cmd with
  | Some _ => true
  | None => Js.inherited cmd
  end.

(** [this._commands[cmd]] *)
Definition get_property (c : Commands) (cmd : string) : Js.value :=
  match own c cmd with
  | Some s => Js.Str s
  | None => if Js.inherited cmd then Js.Builtin cmd else Js.Undefined
  end.

(** [command(cmd)] *)
Definition command (this : Switch) (cmd : string) : Js.value :=
  if has_property (_commands this) cmd
  then get_property (_commands this) cmd
  else Js.Null.

(** [get index()] *)
Definition index : string := "/etc/prime-discrete".

(** [_log(message)]: [Log.journal('Prime.Switch', message)]. *)
Definition _log (message : string) : IO unit :=
  record (Journal "Prime.Switch" message).

(** The value the first branch of the [gpu] getter returns: [this._gpu]
    when it is truthy. *)
Definition cached (this : Switch) : option string :=
  match _gpu this with
  | Some g => if Js.truthy_string g then Some g else None
  | None => None
  end.

Definition uncached (this : Switch) : nat :=
  match cached this with
  | Some _ => 0
  | None => 1
  end.

Section Methods.

Variable sys : System.

(** [_shell_exec(command)] *)
Definition _shell_exec (command : string) : IO result :=
  n <- spawned (Spawn (Js.split " " command)) ;;
  match run sys n (Js.split " " command) with
  | Exited st out err =>
      ret {| status := st; stdin := command; stdout := out; stderr := err |}
  | Threw msg =>
      ret {| status := (-1)%Z; stdin := command; stdout := "";
             stderr := msg |}
  end.

(** [_which(command)] *)
Definition _which (command : string) : IO string :=
  exec <- _shell_exec ("which " ++ command) ;;
  ret (Js.or (Js.trim (stdout exec)) (Js.trim (stderr exec))).

(** [callback.call(this, e)] for a callback of [_shell_exec_async].  For the
    closure of [switch] this is its body. *)
Definition invoke (cb : callback) (e : result) : IO unit :=
  match cb with
  | External f => record (Called f (OfResult e))
  | SwitchDone gpu callback =>
      (if (status e =? 0)%Z
       then _log ("switched to " ++ gpu)
       else _log ("not switched to " ++ gpu ++ " ("
                    ++ Js.trim (stderr e) ++ ")")) ;;;
      match callback with
      | Some f => record (Called f (OfSwitch gpu (status e =? 0)%Z))
      | None => ret tt
      end
  end.

(** [_shell_exec_async(command, callback)]; [callback] is [None] when the
    argument is not a function. *)
Definition _shell_exec_async (command : string) (callback : option callback)
  : IO unit :=
  n <- spawned (SpawnAsync (Js.split " " command)) ;;
  match launch sys n (Js.split " " command) with
  | None => enqueue command callback
  | Some msg =>
      match callback with
      | Some cb =>
          invoke cb {| status := (-1)%Z; stdin := command; stdout := "";
                       stderr := msg |}
      | None => ret tt
      end
  end.

(** The function handed to [communicate_utf8_async], run by the main loop
    when child [id] is done.  [Threw] is [communicate_utf8_finish] raising:
    the function is left before it reaches the callback. *)
Definition completed (id : nat) (o : outcome) : IO unit :=
  t <- dequeue id ;;
  match t, o with
  | Some t, Exited st out err =>
      match task_callback t with
      | Some cb =>
          invoke cb {| status := st; stdin := task_stdin t; stdout := out;
                       stderr := err |}
      | None => ret tt
      end
  | _, _ => ret tt
  end.

(** [_handle_async_shell_exec(source, resource, stdin, callback)], with [o]
    for what [source] and [resource] hold and [input] for [stdin].  Nothing
    in the class calls it. *)
Definition _handle_async_shell_exec (o : outcome) (input : string)
  (callback : option callback) : IO unit :=
  match o, callback with
  | Exited st out err, Some cb =>
      invoke cb {| status := st; stdin := input; stdout := out;
                   stderr := err |}
  | _, _ => ret tt
  end.

(** [new Switch()] *)
Definition constructor : IO Switch :=
  pkexec <- _which "pkexec" ;;
  sudo <- (if Js.truthy_string pkexec then ret pkexec else _which "gksudo") ;;
  select <- _which "prime-select" ;;
  management <- _which "nvidia-smi" ;;
  settings <- _which "nvidia-settings" ;;
  ret {| _commands := {| sudo := sudo; select := select;
                         management := management;
                         settings_ui := settings |};
         _gpu := None; _listener := None |}.

(** [get gpu()].  The getter ends in [return this.gpu], a call of itself
    that finds the value just stored. *)
Equations? gpu (this : Switch) (w : World) : (string * Switch) * World
  by wf (uncached this) lt :=
  gpu this w with inspect (cached this) := {
    | exist _ (Some g) _ => ((g, this), w)
    | exist _ None H =>
        let cmd := command this "management" in
        if Js.truthy cmd then
          let (exec, w') := _shell_exec (Js.to_string cmd ++ " -L") w in
          if (status exec =? 0)%Z
          then gpu (set_gpu this "nvidia") w'
          else gpu (set_gpu this "intel") w'
        else gpu (set_gpu this "unknown") w }.
Proof.
  all: unfold uncached; rewrite H; cbn; lia.
Qed.

(** [get query()] *)
Definition query (this : Switch) : IO string :=
  let cmd := command this "select" in
  if Js.truthy cmd then
    exec <- _shell_exec (Js.to_string cmd ++ " query") ;;
    ret (Js.or (Js.or (Js.trim (stdout exec)) (Js.trim (stderr exec)))
               "unknown")
  else ret "unknown".

(** [switch(gpu, callback)] *)
Definition switch (this : Switch) (gpu : string) (callback : option extfun)
  : IO unit :=
  let sudo := command this "sudo" in
  if negb (Js.truthy sudo) then ret tt else
  let select := command this "select" in
  if negb (Js.truthy select) then ret tt else
  current <- query this ;;
  if String.eqb current gpu then ret tt else
  let cmd := Js.to_string sudo ++ " " ++ Js.to_string select ++ " " ++ gpu in
  _log ("switching to " ++ gpu) ;;;
  _shell_exec_async cmd (Some (SwitchDone gpu callback)).

(** [settings()] *)
Definition settings (this : Switch) : IO unit :=
  let cmd := command this "settings" in
  if negb (Js.truthy cmd) then ret tt else
  _shell_exec_async (Js.to_string cmd) None.

(** [monitor()].  [monitor_file] on a local path is taken to succeed. *)
Definition monitor (this : Switch) : IO Switch :=
  match _listener this with
  | Some _ => ret this
  | None =>
      h <- watch index ;;
      record (Connected h "changed") ;;;
      ret (set_listener this (Some h))
  end.

(** [unmonitor()] *)
Definition unmonitor (this : Switch) : IO Switch :=
  match _listener this with
  | None => ret this
  | Some h =>
      cancel h ;;;
      ret (set_listener this None)
  end.

(** [destroy()] *)
Definition destroy (this : Switch) : IO Switch := unmonitor this.

(** [_handle_listener(file, otherFile, eventType)] *)
Definition _handle_listener (this : Switch) : IO Switch :=
  r <- gpu this ;;
  record (Emitted "gpu-change" (fst r)) ;;;
  ret (snd r).

(** The main loop delivering [changed] from monitor [h]: the handler
    connected by [monitor] runs, unless [h] was cancelled. *)
Definition changed (h : handle) (this : Switch) : IO Switch :=
  fun w =>
    if existsb (Nat.eqb h) (active w) then _handle_listener this w
    else (this, w).

End Methods.

(** ** Sample systems *)

Module Sample.

Definition nl : string := String "010" EmptyString.

(** Every helper is installed under [/usr/bin].  [nvidia-smi -L] succeeds
    during the first five spawns of the session and fails afterwards;
    [prime-select query] prints [intel] during the first five spawns and
    [nvidia] afterwards; every asynchronous start works. *)
Definition desktop : System :=
  {| run := fun n argv =>
       match argv with
       | [w; name] =>
           if String.eqb w "which" then Exited 0 ("/usr/bin/" ++ name ++ nl) ""
           else if String.eqb name "-L" then
             if (n <? 5)%nat then Exited 0 ("GPU 0: GeForce" ++ nl) ""
             else Exited 9 "" ("NVIDIA-SMI has failed" ++ nl)
           else if String.eqb name "query" then
             if (n <? 5)%nat then Exited 0 ("intel" ++ nl) ""
             else Exited 0 ("nvidia" ++ nl) ""
           else Exited 127 "" ""
       | _ => Exited 127 "" ""
       end;
     launch := fun _ _ => None |}.

(** No helper is installed and [which] prints nothing when it finds
    nothing; no other program can be started. *)
Definition bare : System :=
  {| run := fun n argv =>
       match argv with
       | w :: _ =>
           if String.eqb w "which" then Exited 1 "" ""
           else Threw "Error: Failed to execute child process"
       | [] => Threw "Error: Failed to execute child process"
       end;
     launch := fun _ _ => Some "Error: Failed to execute child process" |}.

(** As [bare], with a [which] that reports a miss on its error stream. *)
Definition noisy : System :=
  {| run := fun n argv =>
       match argv with
       | [w; name] =>
           if String.eqb w "which"
           then Exited 1 "" ("which: no " ++ name ++ " in (/usr/bin)" ++ nl)
           else Threw "Error: Failed to execute child process"
       | _ => Threw "Error: Failed to execute child process"
       end;
     launch := fun _ _ => Some "Error: Failed to execute child process" |}.

(** Every helper is found by [which], and none of them can be run. *)
Definition broken : System :=
  {| run := fun n argv =>
       match argv with
       | [w; name] =>
           if String.eqb w "which" then Exited 0 ("/usr/bin/" ++ name ++ nl) ""
           else Threw "Error: Failed to execute child process"
       | _ => Threw "Error: Failed to execute child process"
       end;
     launch := fun _ _ => Some "Error: Failed to execute child process" |}.

End Sample.


(** ** A session: the calls an instance receives *)

(** Everything that can run code of the class on an instance once it is
    built: the application calling a method or reading a getter, and the
    main loop delivering a file change or the end of a child. *)
Inductive call : Type :=
| GetIndex
| GetGpu
| GetQuery
| Command (cmd : string)
| DoSwitch (gpu : string) (callback : option extfun)
| Settings
| Monitor
| Unmonitor
| Destroy
| Log (message : string)
| Which (command : string)
| ShellExec (command : string)
| ShellExecAsync (command : string) (callback : option extfun)
| HandleListener
| HandleAsyncShellExec (o : outcome) (input : string)
    (callback : option extfun)
| Changed (h : handle)
| Completed (id : nat) (o : outcome).

Definition state : Type := (Switch * World)%type.

Section Session.

Variable sys : System.

Definition step (c : call) (s : state) : state :=
  let (this, w) := s in
  match c with
  | GetIndex | Command _ => s
  | GetGpu => let (r, w') := gpu sys this w in (snd r, w')
  | GetQuery => (this, snd (query sys this w))
  | DoSwitch g cb => (this, snd (switch sys this g cb w))
  | Settings => (this, snd (settings sys this w))
  | Monitor => monitor this w
  | Unmonitor => unmonitor this w
  | Destroy => destroy this w
  | Log m => (this, snd (_log m w))
  | Which c => (this, snd (_which sys c w))
  | ShellExec c => (this, snd (_shell_exec sys c w))
  | ShellExecAsync c cb =>
      (this, snd (_shell_exec_async sys c (option_map External cb) w))
  | HandleListener => _handle_listener sys this w
  | HandleAsyncShellExec o input cb =>
      (this,
       snd (_handle_async_shell_exec o input (option_map External cb) w))
  | Changed h => changed sys h this w
  | Completed id o => (this, snd (completed id o w))
  end.

Definition steps (cs : list call) (s : state) : state :=
  fold_left (fun s c => step c s) cs s.

(** The states an instance built in a fresh session goes through. *)
Inductive reachable : state -> Prop :=
| reachable_new : reachable (constructor sys boot)
| reachable_step c s : reachable s -> reachable (step c s).

End Session.

(** ** Predicates used in the statements *)

(** [untouched w w']: from [w] to [w'] only the clock and the trace moved;
    the children in flight and the file monitors are the same. *)
Definition untouched (w w' : World) : Prop :=
  pending w' = pending w /\ next_task w' = next_task w /\
  active w' = active w /\ next_handle w' = next_handle w.

(** The three strings the [gpu] getter can store. *)
Definition gpu_names : list string := ["intel"; "nvidia"; "unknown"].

(** [_gpu] is [null] or one of the three names. *)
Definition gpu_ok (this : Switch) : Prop :=
  _gpu this = None \/ exists g, In g gpu_names /\ _gpu this = Some g.

(** At most one file monitor is alive, and it is the one in [_listener]. *)
Definition monitors_ok (s : state) : Prop :=
  active (snd s) = match _listener (fst s) with
                   | Some h => [h]
                   | None => []
                   end.

(** The children in flight carry distinct identifiers, all handed out
    already. *)
Definition tasks_ok (w : World) : Prop :=
  NoDup (map task_id (pending w)) /\
  Forall (fun t => task_id t < next_task w) (pending w).

(** What a start of a child does to the world besides the trace: nothing
    to the file monitors, and at most one new child in flight, under the
    next free identifier. *)
Definition may_enqueue (w w' : World) : Prop :=
  active w' = active w /\ next_handle w' = next_handle w /\
  ((pending w' = pending w /\ next_task w' = next_task w) \/
   (exists t, task_id t = next_task w /\
              pending w' = (pending w ++ [t])%list /\
              next_task w' = S (next_task w))).

(** Every call, seen from the resources of the world. *)
Inductive footprint (c : call) (s s' : state) : Prop :=
| fp_quiet :
    untouched (snd s) (snd s') -> _listener (fst s') = _listener (fst s) ->
    footprint c s s'
| fp_start :
    may_enqueue (snd s) (snd s') -> fst s' = fst s -> footprint c s s'
| fp_done id o :
    c = Completed id o ->
    s' = (fst s, snd (completed id o (snd s))) -> footprint c s s'
| fp_monitor : s' = monitor (fst s) (snd s) -> footprint c s s'
| fp_unmonitor : s' = unmonitor (fst s) (snd s) -> footprint c s s'.

(** Child [id] is in flight and its completion goes to callback [cb]. *)
Definition in_flight (id : nat) (cb : callback) (w : World) : Prop :=
  exists t, find (fun t => Nat.eqb (task_id t) id) (pending w) = Some t /\
            task_callback t = Some cb.

(** The four roles of the helper table, the property each is stored under
    and the names the constructor looks up for it. *)
Inductive role : Type := SudoRunner | Selector | Manager | SettingsUi.

Definition role_key (r : role) : string :=
  match r with
  | SudoRunner => "sudo"
  | Selector => "select"
  | Manager => "management"
  | SettingsUi => "settings"
  end.

Definition candidates (r : role) : list string :=
  match r with
  | SudoRunner => ["pkexec"; "gksudo"]
  | Selector => ["prime-select"]
  | Manager => ["nvidia-smi"]
  | SettingsUi => ["nvidia-settings"]
  end.

(** A run that leaves nothing but white space on both streams. *)
Definition silent (o : outcome) : Prop :=
  match o with
  | Exited _ out err => Js.trim out = "" /\ Js.trim err = ""
  | Threw msg => Js.trim msg = ""
  end.

(** [which name] finds nothing, whenever it is asked, and says nothing. *)
Definition missing (sys : System) (name : string) : Prop :=
  forall n, silent (run sys n (Js.split " " ("which " ++ name))).

(** C1 as the specification words it: every read of [gpu], in whatever
    state the instance is, runs the probe and answers by its exit status. *)
Definition every_read_probes (sys : System) : Prop :=
  forall s, reachable sys s ->
    let this := fst s in
    let w := snd s in
    let line := Js.to_string (command this "management") ++ " -L" in
    (Js.truthy (command this "management") = false ->
     fst (fst (gpu sys this w)) = "unknown")
    /\
    (Js.truthy (command this "management") = true ->
     let exec := fst (_shell_exec sys line w) in
     snd (gpu sys this w) = snd (_shell_exec sys line w) /\
     (fst (fst (gpu sys this w)) = "intel" <-> status exec <> 0%Z) /\
     (fst (fst (gpu sys this w)) = "nvidia" <-> status exec = 0%Z)).

(** What the getter computes when nothing is memoized. *)
Definition heuristic (sys : System) (this : Switch) : IO (string * Switch) :=
  gpu sys {| _commands := _commands this; _gpu := None;
             _listener := _listener this |}.

(** C6 as the specification words it: a change event on a watching
    instance runs the heuristic again and emits what it finds. *)
Definition change_reruns_heuristic (sys : System) : Prop :=
  forall s h, reachable sys s -> _listener (fst s) = Some h ->
    let found := heuristic sys (fst s) (snd s) in
    snd (changed sys h (fst s) (snd s))
    = snd (record (Emitted "gpu-change" (fst (fst found))) (snd found)).

(** An event any method may leave: anything but the emission of a signal,
    and a file monitor only on [index]. *)
Definition plain (e : event) : Prop :=
  match e with
  | Emitted _ _ => False
  | Watched _ path => path = index
  | _ => True
  end.

(** [grows w w']: the trace of [w'] is the trace of [w] followed by plain
    events. *)
Definition grows (w w' : World) : Prop :=
  exists es, trace w' = (trace w ++ es)%list /\ Forall plain es.

(** What the trace of a session may hold, seen from the instance: a signal
    only if it is [gpu-change] with the memoized value, a file monitor only
    on [index]. *)
Definition event_ok (this : Switch) (e : event) : Prop :=
  match e with
  | Emitted signal value => signal = "gpu-change" /\ cached this = Some value
  | Watched _ path => path = index
  | _ => True
  end.

(** No space in a string. *)
Definition spaceless (s : string) : Prop :=
  ~ In " "%char (list_ascii_of_string s).

(** ** Properties *)

Section Facts.

Variable sys : System.

(** *** The command table *)

Lemma command_sudo this : command this "sudo" = Js.Str (sudo (_commands this)).
Proof. reflexivity. Qed.

Lemma command_select this :
  command this "select" = Js.Str (select (_commands this)).
Proof. reflexivity. Qed.

Lemma command_management this :
  command this "management" = Js.Str (management (_commands this)).
Proof. reflexivity. Qed.

Lemma command_settings this :
  command this "settings" = Js.Str (settings_ui (_commands this)).
Proof. reflexivity. Qed.

(** *** The runners *)

Lemma _shell_exec_world command w :
  snd (_shell_exec sys command w)
  = snd (spawned (Spawn (Js.split " " command)) w).
Proof.
  unfold _shell_exec, bind. cbn.
  destruct (run sys (clock w) (Js.split " " command)); reflexivity.
Qed.

Lemma _shell_exec_result command w :
  fst (_shell_exec sys command w)
  = match run sys (clock w) (Js.split " " command) with
    | Exited st out err =>
        {| status := st; stdin := command; stdout := out; stderr := err |}
    | Threw msg =>
        {| status := (-1)%Z; stdin := command; stdout := ""; stderr := msg |}
    end.
Proof.
  unfold _shell_exec, bind. cbn.
  destruct (run sys (clock w) (Js.split " " command)); reflexivity.
Qed.

(** *** The [gpu] getter, one level of its recursion unfolded *)

Lemma gpu_body this w :
  gpu sys this w =
  match cached this with
  | Some g => ((g, this), w)
  | None =>
      if Js.truthy (command this "management") then
        let (exec, w') :=
          _shell_exec sys
            (Js.to_string (command this "management") ++ " -L") w in
        let v := if (status exec =? 0)%Z then "nvidia" else "intel" in
        ((v, set_gpu this v), w')
      else (("unknown", set_gpu this "unknown"), w)
  end.
Proof.
  funelim (gpu sys this w).
  - rewrite e. reflexivity.
  - rewrite H.
    destruct (Js.truthy (command this "management")).
    + destruct (_shell_exec sys _ w) as [exec w'].
      destruct (status exec =? 0)%Z.
      * rewrite H0 by exact exec. reflexivity.
      * rewrite H1 by exact exec. reflexivity.
    + rewrite H2. reflexivity.
Qed.

End Facts.

(** ** Which part of the world each method touches *)

Section Frame.

Variable sys : System.

Lemma untouched_refl w : untouched w w.
Proof. repeat split. Qed.

Lemma untouched_trans w1 w2 w3 :
  untouched w1 w2 -> untouched w2 w3 -> untouched w1 w3.
Proof.
  unfold untouched. intros (a & b & c & d) (a' & b' & c' & d').
  repeat split; congruence.
Qed.

Lemma record_untouched e w : untouched w (snd (record e w)).
Proof. repeat split. Qed.

Lemma spawned_untouched e w : untouched w (snd (spawned e w)).
Proof. repeat split. Qed.

Lemma _log_untouched m w : untouched w (snd (_log m w)).
Proof. apply record_untouched. Qed.

Lemma _shell_exec_untouched command w :
  untouched w (snd (_shell_exec sys command w)).
Proof. rewrite _shell_exec_world. apply spawned_untouched. Qed.

Lemma _which_untouched command w : untouched w (snd (_which sys command w)).
Proof.
  unfold _which, bind.
  pose proof (_shell_exec_untouched ("which " ++ command) w) as H.
  destruct (_shell_exec sys ("which " ++ command) w). exact H.
Qed.

Lemma invoke_untouched cb e w : untouched w (snd (invoke cb e w)).
Proof.
  destruct cb as [g [f|]|f]; unfold invoke, bind, _log, ret;
    destruct (status e =? 0)%Z; cbn; repeat split.
Qed.

Lemma _handle_async_shell_exec_untouched o input cb w :
  untouched w (snd (_handle_async_shell_exec o input cb w)).
Proof.
  destruct o as [msg|st out err]; [apply untouched_refl|].
  destruct cb as [cb|]; [apply invoke_untouched | apply untouched_refl].
Qed.

Lemma query_untouched this w : untouched w (snd (query sys this w)).
Proof.
  unfold query. destruct (Js.truthy (command this "select")).
  - unfold bind.
    pose proof (_shell_exec_untouched
                  (Js.to_string (command this "select") ++ " query") w) as H.
    destruct (_shell_exec sys _ w). exact H.
  - apply untouched_refl.
Qed.

(** The two ways a read of [gpu] goes: a truthy [_gpu] is returned as it
    is, with no effect at all; otherwise one of the three names is stored
    and returned. *)
Lemma gpu_cases this w :
  (exists g, cached this = Some g /\ gpu sys this w = ((g, this), w)) \/
  (cached this = None /\
   exists v w', In v gpu_names /\ untouched w w' /\
                gpu sys this w = ((v, set_gpu this v), w')).
Proof.
  rewrite gpu_body. destruct (cached this) as [g|] eqn:E.
  - left. exists g. split; reflexivity.
  - right. split; [reflexivity|].
    destruct (Js.truthy (command this "management")).
    + pose proof (_shell_exec_untouched
                    (Js.to_string (command this "management") ++ " -L") w)
        as H.
      destruct (_shell_exec sys _ w) as [exec w']. cbn in H.
      exists (if (status exec =? 0)%Z then "nvidia" else "intel"), w'.
      repeat split; try apply H.
      destruct (status exec =? 0)%Z; cbn; auto.
    + exists "unknown", w. repeat split. cbn; auto.
Qed.

Lemma gpu_untouched this w : untouched w (snd (gpu sys this w)).
Proof.
  destruct (gpu_cases this w) as [(g & _ & E)|(_ & v & w' & _ & U & E)];
    rewrite E; [apply untouched_refl | exact U].
Qed.

Lemma gpu_commands this w :
  _commands (snd (fst (gpu sys this w))) = _commands this.
Proof.
  destruct (gpu_cases this w) as [(g & _ & E)|(_ & v & w' & _ & U & E)];
    rewrite E; reflexivity.
Qed.

Lemma gpu_listener this w :
  _listener (snd (fst (gpu sys this w))) = _listener this.
Proof.
  destruct (gpu_cases this w) as [(g & _ & E)|(_ & v & w' & _ & U & E)];
    rewrite E; reflexivity.
Qed.

Lemma _handle_listener_untouched this w :
  untouched w (snd (_handle_listener sys this w)).
Proof.
  unfold _handle_listener, bind.
  pose proof (gpu_untouched this w) as H.
  destruct (gpu sys this w) as [r w']. cbn in *.
  eapply untouched_trans; [exact H | apply record_untouched].
Qed.

Lemma _handle_listener_this this w :
  fst (_handle_listener sys this w) = snd (fst (gpu sys this w)).
Proof.
  unfold _handle_listener, bind.
  destruct (gpu sys this w) as [r w']. reflexivity.
Qed.

End Frame.

(** ** Invariants of a session *)

Section Invariants.

Variable sys : System.

(** The object after a call is the object before it, but for what the
    [gpu] getter stores and what [monitor] and [unmonitor] do to
    [_listener]. *)
Lemma step_this c this w :
  let this' := fst (step sys c (this, w)) in
  this' = this \/
  this' = snd (fst (gpu sys this w)) \/
  (exists l, this' = set_listener this l).
Proof.
  destruct c; cbn; auto.
  - right; left. destruct (gpu sys this w). reflexivity.
  - unfold monitor. destruct (_listener this); cbn; eauto.
  - unfold unmonitor. destruct (_listener this); cbn; eauto.
  - unfold destroy, unmonitor. destruct (_listener this); cbn; eauto.
  - right; left. apply _handle_listener_this.
  - unfold changed. destruct (existsb _ _); cbn; auto.
    right; left. apply _handle_listener_this.
Qed.

Lemma gpu_keeps_cached this w g :
  cached this = Some g -> snd (fst (gpu sys this w)) = this.
Proof.
  intros H.
  destruct (gpu_cases sys this w) as [(g' & _ & E)|(N & _)].
  - rewrite E. reflexivity.
  - congruence.
Qed.

Lemma step_commands c s :
  _commands (fst (step sys c s)) = _commands (fst s).
Proof.
  destruct s as [this w].
  destruct (step_this c this w) as [E|[E|(l & E)]]; rewrite E; cbn;
    auto using gpu_commands.
Qed.

(** No call replaces a memoized value. *)
Lemma step_cached c s g :
  cached (fst s) = Some g -> cached (fst (step sys c s)) = Some g.
Proof.
  destruct s as [this w]. cbn [fst]. intros H.
  destruct (step_this c this w) as [E|[E|(l & E)]]; rewrite E.
  - exact H.
  - rewrite (gpu_keeps_cached this w g H). exact H.
  - exact H.
Qed.

Lemma steps_cached cs s g :
  cached (fst s) = Some g -> cached (fst (steps sys cs s)) = Some g.
Proof.
  revert s. induction cs as [|c cs IH]; intros s H; cbn.
  - exact H.
  - apply IH. apply step_cached. exact H.
Qed.

Lemma gpu_gpu_ok this w : gpu_ok this -> gpu_ok (snd (fst (gpu sys this w))).
Proof.
  intros H.
  destruct (gpu_cases sys this w) as [(g & _ & E)|(_ & v & w' & I & _ & E)];
    rewrite E; cbn.
  - exact H.
  - right. exists v. split; [exact I | reflexivity].
Qed.

Lemma step_gpu_ok c s : gpu_ok (fst s) -> gpu_ok (fst (step sys c s)).
Proof.
  destruct s as [this w]. cbn [fst]. intros H.
  destruct (step_this c this w) as [E|[E|(l & E)]]; rewrite E.
  - exact H.
  - apply gpu_gpu_ok. exact H.
  - exact H.
Qed.

Lemma constructor_fields w :
  _gpu (fst (constructor sys w)) = None /\
  _listener (fst (constructor sys w)) = None.
Proof.
  unfold constructor, bind.
  destruct (_which sys "pkexec" w) as [pkexec w1].
  destruct (if Js.truthy_string pkexec then ret pkexec else _which sys "gksudo")
    as [sudo w2] eqn:E.
  destruct (_which sys "prime-select" w2) as [sel w3].
  destruct (_which sys "nvidia-smi" w3) as [man w4].
  destruct (_which sys "nvidia-settings" w4) as [set w5].
  split; reflexivity.
Qed.

Lemma constructor_untouched w : untouched w (snd (constructor sys w)).
Proof.
  unfold constructor, bind.
  pose proof (_which_untouched sys "pkexec" w) as H1.
  destruct (_which sys "pkexec" w) as [pkexec w1].
  assert (H2 : untouched w1
                 (snd ((if Js.truthy_string pkexec then ret pkexec
                        else _which sys "gksudo") w1))).
  { destruct (Js.truthy_string pkexec);
      [apply untouched_refl | apply _which_untouched]. }
  destruct ((if Js.truthy_string pkexec then ret pkexec
             else _which sys "gksudo") w1) as [sudo w2].
  pose proof (_which_untouched sys "prime-select" w2) as H3.
  destruct (_which sys "prime-select" w2) as [sel w3].
  pose proof (_which_untouched sys "nvidia-smi" w3) as H4.
  destruct (_which sys "nvidia-smi" w3) as [man w4].
  pose proof (_which_untouched sys "nvidia-settings" w4) as H5.
  destruct (_which sys "nvidia-settings" w4) as [set w5].
  cbn in *.
  eauto using untouched_trans.
Qed.

Lemma reachable_gpu_ok s : reachable sys s -> gpu_ok (fst s).
Proof.
  induction 1 as [|c s _ IH].
  - left. apply constructor_fields.
  - apply step_gpu_ok. exact IH.
Qed.

Lemma reachable_commands s :
  reachable sys s -> _commands (fst s) = _commands (fst (constructor sys boot)).
Proof.
  induction 1 as [|c s _ IH].
  - reflexivity.
  - rewrite step_commands. exact IH.
Qed.

Lemma reachable_steps cs s : reachable sys s -> reachable sys (steps sys cs s).
Proof.
  revert s. induction cs as [|c cs IH]; intros s R; cbn; [exact R|].
  apply IH. apply reachable_step. exact R.
Qed.

End Invariants.

Section Resources.

Variable sys : System.

Lemma untouched_may_enqueue w w' : untouched w w' -> may_enqueue w w'.
Proof. intros (a & b & c & d). repeat split; auto. Qed.

Lemma may_enqueue_after w1 w2 w3 :
  untouched w1 w2 -> may_enqueue w2 w3 -> may_enqueue w1 w3.
Proof.
  intros (a & b & c & d) (c' & d' & [(a' & b')|(t & i & a' & b')]).
  - repeat split; try congruence. left. split; congruence.
  - repeat split; try congruence. right. exists t.
    repeat split; congruence.
Qed.

Lemma _shell_exec_async_world command cb w :
  may_enqueue w (snd (_shell_exec_async sys command cb w)).
Proof.
  unfold _shell_exec_async, bind. cbn.
  destruct (launch sys (clock w) (Js.split " " command)) as [msg|].
  - apply untouched_may_enqueue. destruct cb as [cb|].
    + eapply untouched_trans; [apply (spawned_untouched
        (SpawnAsync (Js.split " " command)) w) | apply invoke_untouched].
    + repeat split.
  - repeat split. right.
    exists {| task_id := next_task w; task_stdin := command;
              task_callback := cb |}.
    repeat split.
Qed.

Lemma switch_world this gpu cb w :
  may_enqueue w (snd (switch sys this gpu cb w)).
Proof.
  unfold switch.
  destruct (negb (Js.truthy (command this "sudo")));
    [apply untouched_may_enqueue, untouched_refl|].
  destruct (negb (Js.truthy (command this "select")));
    [apply untouched_may_enqueue, untouched_refl|].
  unfold bind.
  pose proof (query_untouched sys this w) as Q.
  destruct (query sys this w) as [current w1]. cbn in Q.
  destruct (String.eqb current gpu);
    [apply untouched_may_enqueue; exact Q|].
  pose proof (_log_untouched ("switching to " ++ gpu) w1) as L.
  destruct (_log ("switching to " ++ gpu) w1) as [u w2]. cbn in L.
  eapply may_enqueue_after;
    [eapply untouched_trans; eassumption | apply _shell_exec_async_world].
Qed.

Lemma settings_world this w : may_enqueue w (snd (settings sys this w)).
Proof.
  unfold settings.
  destruct (negb (Js.truthy (command this "settings")));
    [apply untouched_may_enqueue, untouched_refl
    |apply _shell_exec_async_world].
Qed.

Lemma completed_world id o w :
  let w' := snd (completed id o w) in
  active w' = active w /\ next_handle w' = next_handle w /\
  next_task w' = next_task w /\
  pending w' = filter (fun t => negb (Nat.eqb (task_id t) id)) (pending w).
Proof.
  unfold completed, bind. cbn.
  destruct (find _ (pending w)) as [t|]; [destruct o as [msg|st out err]|];
    try (repeat split; fail).
  destruct (task_callback t) as [cb|]; [|repeat split].
  match goal with |- context [invoke cb ?e ?w0] =>
    destruct (invoke_untouched cb e w0) as (a & b & c & d) end.
  repeat split; assumption.
Qed.

Lemma monitor_world this w :
  pending (snd (monitor this w)) = pending w /\
  next_task (snd (monitor this w)) = next_task w.
Proof. unfold monitor. destruct (_listener this); split; reflexivity. Qed.

Lemma unmonitor_world this w :
  pending (snd (unmonitor this w)) = pending w /\
  next_task (snd (unmonitor this w)) = next_task w.
Proof. unfold unmonitor. destruct (_listener this); split; reflexivity. Qed.

Lemma step_footprint c s : footprint c s (step sys c s).
Proof.
  destruct s as [this w].
  destruct c; cbn [step].
  - apply fp_quiet; [apply untouched_refl | reflexivity].
  - apply fp_quiet.
    + pose proof (gpu_untouched sys this w) as H.
      destruct (gpu sys this w). exact H.
    + pose proof (gpu_listener sys this w) as H.
      destruct (gpu sys this w). exact H.
  - apply fp_quiet; [apply query_untouched | reflexivity].
  - apply fp_quiet; [apply untouched_refl | reflexivity].
  - apply fp_start; [apply switch_world | reflexivity].
  - apply fp_start; [apply settings_world | reflexivity].
  - apply fp_monitor. reflexivity.
  - apply fp_unmonitor. reflexivity.
  - apply fp_unmonitor. reflexivity.
  - apply fp_quiet; [apply _log_untouched | reflexivity].
  - apply fp_quiet; [apply _which_untouched | reflexivity].
  - apply fp_quiet; [apply _shell_exec_untouched | reflexivity].
  - apply fp_start; [apply _shell_exec_async_world | reflexivity].
  - apply fp_quiet; [apply _handle_listener_untouched|].
    cbn [fst]. rewrite _handle_listener_this. apply gpu_listener.
  - apply fp_quiet; [apply _handle_async_shell_exec_untouched | reflexivity].
  - unfold changed. destruct (existsb _ _).
    + apply fp_quiet; [apply _handle_listener_untouched|].
      cbn [fst]. rewrite _handle_listener_this. apply gpu_listener.
    + apply fp_quiet; [apply untouched_refl | reflexivity].
  - eapply fp_done; reflexivity.
Qed.

End Resources.

Section ResourceInvariants.

Variable sys : System.

Lemma monitor_monitors_ok this w :
  monitors_ok (this, w) -> monitors_ok (monitor this w).
Proof.
  unfold monitors_ok, monitor. cbn.
  destruct (_listener this) as [h|] eqn:E; cbn; intros H.
  - rewrite E. exact H.
  - rewrite H. reflexivity.
Qed.

Lemma unmonitor_monitors_ok this w :
  monitors_ok (this, w) -> monitors_ok (unmonitor this w).
Proof.
  unfold monitors_ok, unmonitor. cbn.
  destruct (_listener this) as [h|] eqn:E; cbn; intros H.
  - rewrite H. cbn. rewrite Nat.eqb_refl. reflexivity.
  - rewrite E. exact H.
Qed.

Lemma step_monitors_ok c s : monitors_ok s -> monitors_ok (step sys c s).
Proof.
  intros H.
  destruct (step_footprint sys c s) as [U L|M E|id o _ E|E|E].
  - unfold monitors_ok. rewrite L. destruct U as (_ & _ & a & _).
    rewrite a. exact H.
  - unfold monitors_ok. rewrite E. destruct M as (a & _).
    rewrite a. exact H.
  - rewrite E. unfold monitors_ok. cbn [fst snd].
    destruct (completed_world id o (snd s)) as (a & _). rewrite a. exact H.
  - rewrite E. apply monitor_monitors_ok. destruct s; exact H.
  - rewrite E. apply unmonitor_monitors_ok. destruct s; exact H.
Qed.

Lemma reachable_monitors_ok s : reachable sys s -> monitors_ok s.
Proof.
  induction 1 as [|c s _ IH].
  - unfold monitors_ok.
    destruct (constructor_fields sys boot) as (_ & L). rewrite L.
    destruct (constructor_untouched sys boot) as (_ & _ & a & _).
    rewrite a. reflexivity.
  - apply step_monitors_ok. exact IH.
Qed.

(** Dropping the child [id] from the children in flight drops [id] from
    their identifiers. *)
Lemma dequeue_ids id (l : list task) :
  map task_id (filter (fun t => negb (Nat.eqb (task_id t) id)) l)
  = filter (fun i => negb (Nat.eqb i id)) (map task_id l).
Proof.
  induction l as [|t l IH]; cbn; [reflexivity|].
  destruct (Nat.eqb (task_id t) id); cbn; rewrite IH; reflexivity.
Qed.

Lemma tasks_ok_may_enqueue w w' : may_enqueue w w' -> tasks_ok w -> tasks_ok w'.
Proof.
  intros (_ & _ & [(a & b)|(t & i & a & b)]) (N & F); unfold tasks_ok.
  - rewrite a, b. split; assumption.
  - rewrite a, b. split.
    + rewrite map_app. cbn. apply NoDup_app.
      * exact N.
      * constructor; [intros []|constructor].
      * intros x I [e|[]]. subst x.
        apply in_map_iff in I. destruct I as (y & e & I).
        rewrite Forall_forall in F. specialize (F y I). lia.
    + apply Forall_app. split.
      * eapply Forall_impl; [|exact F]. cbn. intros; lia.
      * constructor; [lia|constructor].
Qed.

Lemma tasks_ok_completed id o w : tasks_ok w -> tasks_ok (snd (completed id o w)).
Proof.
  intros (N & F). destruct (completed_world id o w) as (_ & _ & b & a).
  unfold tasks_ok. rewrite a, b. split.
  - rewrite dequeue_ids. apply NoDup_filter, N.
  - rewrite Forall_forall in *. intros t I. apply F.
    apply filter_In in I. apply I.
Qed.

Lemma step_tasks_ok c s : tasks_ok (snd s) -> tasks_ok (snd (step sys c s)).
Proof.
  intros H.
  destruct (step_footprint sys c s) as [U L|M E|id o _ E|E|E].
  - eapply tasks_ok_may_enqueue; [apply untouched_may_enqueue|]; eassumption.
  - eapply tasks_ok_may_enqueue; eassumption.
  - rewrite E. apply tasks_ok_completed. exact H.
  - rewrite E. destruct (monitor_world (fst s) (snd s)) as (a & b).
    destruct H as (N & F). unfold tasks_ok. rewrite a, b. split; assumption.
  - rewrite E. destruct (unmonitor_world (fst s) (snd s)) as (a & b).
    destruct H as (N & F). unfold tasks_ok. rewrite a, b. split; assumption.
Qed.

Lemma reachable_tasks_ok s : reachable sys s -> tasks_ok (snd s).
Proof.
  induction 1 as [|c s _ IH].
  - destruct (constructor_untouched sys boot) as (a & b & _).
    unfold tasks_ok. rewrite a, b. split; constructor.
  - apply step_tasks_ok. exact IH.
Qed.

End ResourceInvariants.

(** ** The command table: [command] *)

Section CommandTable.

Lemma command_unknown_name this cmd :
  own (_commands this) cmd = None -> Js.inherited cmd = false ->
  command this cmd = Js.Null.
Proof.
  unfold command, has_property. intros O I. rewrite O, I. reflexivity.
Qed.

Lemma command_never_undefined this cmd : command this cmd <> Js.Undefined.
Proof.
  unfold command, has_property, get_property.
  destruct (own (_commands this) cmd); [discriminate|].
  destruct (Js.inherited cmd); discriminate.
Qed.

(** C10, at the name [toString]: it is none of the four roles, yet
    [command] answers with the member every object literal inherits from
    [Object.prototype], not with [null]. *)
Theorem command_toString_not_null this :
  ~ In "toString" ["sudo"; "select"; "management"; "settings"] /\
  command this "toString" = Js.Builtin "toString" /\
  command this "toString" <> Js.Null.
Proof.
  split; [|split].
  - cbn. intros [H|[H|[H|[H|[]]]]]; discriminate H.
  - reflexivity.
  - discriminate.
Qed.

End CommandTable.

(** ** The command runners *)

Section Runners.

Variable sys : System.

(** C7: neither runner raises.  When the spawn raises [msg],
    [_shell_exec] returns status -1 with [msg] in [stderr]; and
    [_shell_exec_async] calls the callback it was given there and then,
    with status -1 and [msg] in [stderr], and leaves no child in flight
    that could call it again. *)
Theorem runners_capture_spawn_failure command msg w :
  (run sys (clock w) (Js.split " " command) = Threw msg ->
   _shell_exec sys command w
   = ({| status := (-1)%Z; stdin := command; stdout := ""; stderr := msg |},
      snd (spawned (Spawn (Js.split " " command)) w)))
  /\
  (launch sys (clock w) (Js.split " " command) = Some msg ->
   forall cb,
     let failure := {| status := (-1)%Z; stdin := command; stdout := "";
                       stderr := msg |} in
     let w' := snd (spawned (SpawnAsync (Js.split " " command)) w) in
     _shell_exec_async sys command (Some cb) w = invoke cb failure w' /\
     pending (snd (_shell_exec_async sys command (Some cb) w)) = pending w /\
     forall f, cb = External f ->
       trace (snd (_shell_exec_async sys command (Some cb) w))
       = (trace w ++ [SpawnAsync (Js.split " " command);
                      Called f (OfResult failure)])%list).
Proof.
  split.
  - intros H. unfold _shell_exec, bind. cbn. rewrite H. reflexivity.
  - intros H cb failure w'.
    assert (E : _shell_exec_async sys command (Some cb) w
                = invoke cb failure w').
    { unfold _shell_exec_async, bind. cbn. rewrite H. reflexivity. }
    split; [exact E|]. rewrite E. split.
    + destruct (invoke_untouched cb failure w') as (a & _). exact a.
    + intros f ->. cbn. rewrite <- app_assoc. reflexivity.
Qed.

End Runners.

Lemma runners_capture_spawn_failure_witness :
  _shell_exec Sample.bare "nvidia-smi -L" boot
  = ({| status := (-1)%Z; stdin := "nvidia-smi -L"; stdout := "";
        stderr := "Error: Failed to execute child process" |},
     snd (spawned (Spawn ["nvidia-smi"; "-L"]) boot))
  /\
  trace (snd (_shell_exec_async Sample.bare "nvidia-settings"
                (Some (External 3)) boot))
  = [SpawnAsync ["nvidia-settings"];
     Called 3 (OfResult {| status := (-1)%Z; stdin := "nvidia-settings";
                           stdout := "";
                           stderr := "Error: Failed to execute child process"
                        |})].
Proof.
  split.
  - apply (proj1 (runners_capture_spawn_failure Sample.bare "nvidia-smi -L"
                    "Error: Failed to execute child process" boot)).
    reflexivity.
  - apply (proj2 (runners_capture_spawn_failure Sample.bare "nvidia-settings"
                    "Error: Failed to execute child process" boot)
             eq_refl (External 3)).
    reflexivity.
Defined.


(** ** The selection query: [query] *)

Section Query.

Variable sys : System.

Lemma query_with_selector this w :
  Js.truthy (command this "select") = true ->
  let line := select (_commands this) ++ " query" in
  let exec := fst (_shell_exec sys line w) in
  query sys this w
  = (match Js.trim (stdout exec), Js.trim (stderr exec) with
     | EmptyString, EmptyString => "unknown"
     | EmptyString, err => err
     | out, _ => out
     end,
     snd (spawned (Spawn (Js.split " " line)) w)).
Proof.
  intros H. unfold query. rewrite H.
  cbn zeta. unfold bind. rewrite command_select. cbn [Js.to_string].
  rewrite <- (_shell_exec_world sys).
  destruct (_shell_exec sys _ w) as [exec w']. cbn [fst snd ret].
  unfold Js.or.
  destruct (Js.trim (stdout exec)); cbn; [|reflexivity].
  destruct (Js.trim (stderr exec)); reflexivity.
Qed.

(** C8: with no selector, [query] is [unknown] and nothing is run; with
    one, every read runs [<selector> query] and answers with the trimmed
    output, else the trimmed error text, else [unknown].  The read leaves
    nothing behind but the spawn, so the next read runs the command again. *)
Theorem query_reads_selector this w :
  (Js.truthy (command this "select") = false ->
   query sys this w = ("unknown", w))
  /\
  (Js.truthy (command this "select") = true ->
   let line := select (_commands this) ++ " query" in
   let exec := fst (_shell_exec sys line w) in
   query sys this w
   = (match Js.trim (stdout exec), Js.trim (stderr exec) with
      | EmptyString, EmptyString => "unknown"
      | EmptyString, err => err
      | out, _ => out
      end,
      snd (spawned (Spawn (Js.split " " line)) w))).
Proof.
  split; intros H.
  - unfold query. rewrite H. reflexivity.
  - apply query_with_selector, H.
Qed.

End Query.

(** Two reads in a row run the selector twice and may differ. *)
Example query_is_not_memoized :
  let s := constructor Sample.desktop boot in
  let first := query Sample.desktop (fst s) (snd s) in
  let second := query Sample.desktop (fst s) (snd first) in
  fst first = "intel" /\ fst second = "nvidia" /\
  trace (snd second)
  = (trace (snd s) ++ [Spawn ["/usr/bin/prime-select"; "query"];
                       Spawn ["/usr/bin/prime-select"; "query"]])%list.
Proof. repeat split. Qed.

Lemma query_reads_selector_witness :
  query Sample.bare (fst (constructor Sample.bare boot)) boot
  = ("unknown", boot)
  /\
  query Sample.desktop (fst (constructor Sample.desktop boot)) boot
  = ("intel", snd (spawned (Spawn ["/usr/bin/prime-select"; "query"]) boot)).
Proof.
  split.
  - apply (proj1 (query_reads_selector Sample.bare
                    (fst (constructor Sample.bare boot)) boot)).
    reflexivity.
  - apply (proj2 (query_reads_selector Sample.desktop
                    (fst (constructor Sample.desktop boot)) boot)).
    reflexivity.
Defined.

(** ** The active GPU: [gpu] *)

Section Gpu.

Variable sys : System.

Lemma cached_Some this g : cached this = Some g -> _gpu this = Some g.
Proof.
  unfold cached. destruct (_gpu this) as [g'|]; [|discriminate].
  destruct (Js.truthy_string g'); [|discriminate]. intros H; exact H.
Qed.

Lemma gpu_memo this w g :
  cached this = Some g -> gpu sys this w = ((g, this), w).
Proof. intros H. rewrite gpu_body, H. reflexivity. Qed.

Lemma gpu_stores this w :
  cached (snd (fst (gpu sys this w))) = Some (fst (fst (gpu sys this w))).
Proof.
  destruct (gpu_cases sys this w) as [(g & C & E)|(_ & v & w' & I & _ & E)];
    rewrite E; cbn [fst snd].
  - exact C.
  - destruct I as [<-|[<-|[<-|[]]]]; reflexivity.
Qed.

(** C1, amended: a read of [gpu] made while nothing is memoized answers
    [unknown] without running anything when there is no management helper,
    and otherwise runs [<manager> -L] once and answers [intel] exactly when
    the status is non-zero and [nvidia] exactly when it is zero.  A read
    made while a value is memoized ([_gpu] holds a non-empty string) runs
    nothing, changes nothing and returns that value. *)
Theorem gpu_read this w :
  (cached this = None ->
   let line := management (_commands this) ++ " -L" in
   (Js.truthy (command this "management") = false ->
    gpu sys this w = (("unknown", set_gpu this "unknown"), w))
   /\
   (Js.truthy (command this "management") = true ->
    let exec := fst (_shell_exec sys line w) in
    snd (gpu sys this w) = snd (spawned (Spawn (Js.split " " line)) w) /\
    _gpu (snd (fst (gpu sys this w))) = Some (fst (fst (gpu sys this w))) /\
    (fst (fst (gpu sys this w)) = "intel" <-> status exec <> 0%Z) /\
    (fst (fst (gpu sys this w)) = "nvidia" <-> status exec = 0%Z)))
  /\
  (forall g, _gpu this = Some g -> g <> "" ->
             cached this = Some g /\ gpu sys this w = ((g, this), w)).
Proof.
  split.
  - intros C line. rewrite gpu_body, C. split; intros T; rewrite T.
    + reflexivity.
    + rewrite command_management. cbn [Js.to_string]. fold line.
      rewrite <- (_shell_exec_world sys).
      destruct (_shell_exec sys line w) as [exec w']. cbn [fst snd].
      repeat split; try (destruct (Z.eqb_spec (status exec) 0);
                         congruence || discriminate).
  - intros g G N.
    assert (C : cached this = Some g).
    { unfold cached. rewrite G. destruct g; [contradiction | reflexivity]. }
    split; [exact C|]. rewrite gpu_body, C. reflexivity.
Qed.

End Gpu.

Lemma gpu_read_witness :
  gpu Sample.bare (fst (constructor Sample.bare boot)) boot
  = (("unknown", set_gpu (fst (constructor Sample.bare boot)) "unknown"),
     boot)
  /\
  (fst (fst (gpu Sample.desktop (fst (constructor Sample.desktop boot)) boot))
   = "nvidia"
   <-> status (fst (_shell_exec Sample.desktop "/usr/bin/nvidia-smi -L" boot))
       = 0%Z)
  /\
  (let s := step Sample.desktop GetGpu (constructor Sample.desktop boot) in
   gpu Sample.desktop (fst s) (snd s) = (("nvidia", fst s), snd s)).
Proof.
  split; [|split].
  - apply (proj1 (proj1 (gpu_read Sample.bare
                           (fst (constructor Sample.bare boot)) boot)
                    eq_refl)).
    reflexivity.
  - apply (proj2 (proj1 (gpu_read Sample.desktop
                           (fst (constructor Sample.desktop boot)) boot)
                    eq_refl)).
    reflexivity.
  - refine (proj2 (proj2 (gpu_read Sample.desktop
                            (fst (step Sample.desktop GetGpu
                                    (constructor Sample.desktop boot)))
                            (snd (step Sample.desktop GetGpu
                                    (constructor Sample.desktop boot))))
                     "nvidia" eq_refl _)).
    discriminate.
Defined.

(** C1 fails as worded: on [Sample.desktop] the second read of [gpu] runs
    nothing and answers [nvidia], although the management helper is
    resolved and [nvidia-smi -L], run at that moment, ends with status 9. *)
Lemma second_read_does_not_probe : ~ every_read_probes Sample.desktop.
Proof.
  intros H.
  specialize (H (step Sample.desktop GetGpu (constructor Sample.desktop boot))
                (reachable_step _ _ _ (reachable_new _))).
  destruct H as (_ & H). specialize (H eq_refl).
  destruct H as (H & _). vm_compute in H. discriminate H.
Qed.

(** C2: once a read of [gpu] has answered, the answer is one of the three
    names, it stays in [_gpu] through every later call on the instance, and
    every later read returns it without running anything, whatever the
    helpers would answer by then. *)
Theorem gpu_memoized (sys later last : System) (s : state) (cs : list call) :
  reachable sys s ->
  let first := gpu sys (fst s) (snd s) in
  let g := fst (fst first) in
  let s' := steps later cs (snd (fst first), snd first) in
  In g gpu_names /\
  _gpu (fst s') = Some g /\
  gpu last (fst s') (snd s') = ((g, fst s'), snd s').
Proof.
  intros R first g s'.
  assert (C : cached (snd (fst first)) = Some g) by apply gpu_stores.
  assert (C' : cached (fst s') = Some g)
    by (apply (steps_cached later cs (snd (fst first), snd first)), C).
  split; [|split].
  - assert (K : gpu_ok (snd (fst first)))
      by (apply gpu_gpu_ok, (reachable_gpu_ok sys), R).
    apply cached_Some in C. destruct K as [K|(g' & I & K)]; [congruence|].
    replace g with g' by congruence. exact I.
  - apply cached_Some, C'.
  - apply gpu_memo, C'.
Qed.

Lemma gpu_memoized_witness :
  let s := constructor Sample.desktop boot in
  let cs := [GetQuery; Changed 0; DoSwitch "nvidia" None; Monitor; GetGpu;
             Unmonitor] in
  let s' := steps Sample.bare cs
              (step Sample.desktop GetGpu s) in
  In "nvidia" gpu_names /\
  _gpu (fst s') = Some "nvidia" /\
  gpu Sample.noisy (fst s') (snd s') = (("nvidia", fst s'), snd s').
Proof.
  exact (gpu_memoized Sample.desktop Sample.bare Sample.noisy
           (constructor Sample.desktop boot)
           [GetQuery; Changed 0; DoSwitch "nvidia" None; Monitor; GetGpu;
            Unmonitor]
           (reachable_new Sample.desktop)).
Defined.

(** ** The file monitor *)

Section Monitoring.

Variable sys : System.

(** C6, amended: a change event on a watching instance reads the [gpu]
    getter and emits [gpu-change] with what the getter returns; when a
    value is memoized that is the memoized value and nothing is run, and
    only when none is does the getter run its heuristic. *)
Theorem change_event_emits_gpu s h :
  reachable sys s -> _listener (fst s) = Some h ->
  let read := gpu sys (fst s) (snd s) in
  changed sys h (fst s) (snd s)
  = (snd (fst read),
     snd (record (Emitted "gpu-change" (fst (fst read))) (snd read)))
  /\ (forall g, cached (fst s) = Some g -> read = ((g, fst s), snd s))
  /\ (cached (fst s) = None -> read = heuristic sys (fst s) (snd s)).
Proof.
  intros R L read. split; [|split].
  - pose proof (reachable_monitors_ok sys s R) as M.
    unfold monitors_ok in M. rewrite L in M.
    unfold changed. rewrite M. cbn [existsb]. rewrite Nat.eqb_refl.
    cbn [orb]. unfold _handle_listener, bind. fold read.
    destruct read as [[g this'] w']. reflexivity.
  - intros g C. apply gpu_memo, C.
  - intros C. unfold read, heuristic. f_equal.
    destruct (reachable_gpu_ok sys s R) as [N|(g & I & N)].
    + destruct (fst s) as [c g l]. cbn in *. subst g. reflexivity.
    + unfold cached in C. rewrite N in C.
      destruct I as [<-|[<-|[<-|[]]]]; discriminate C.
Qed.

End Monitoring.

Lemma change_event_emits_gpu_witness :
  let s := steps Sample.desktop [Monitor; GetGpu]
             (constructor Sample.desktop boot) in
  changed Sample.desktop 0 (fst s) (snd s)
  = (fst s, snd (record (Emitted "gpu-change" "nvidia") (snd s))).
Proof.
  apply (change_event_emits_gpu Sample.desktop
           (steps Sample.desktop [Monitor; GetGpu]
              (constructor Sample.desktop boot)) 0).
  - apply (reachable_step _ GetGpu), (reachable_step _ Monitor),
      reachable_new.
  - reflexivity.
Defined.

(** C6 fails as worded: on [Sample.desktop], watching and with [nvidia]
    memoized, a change event emits [nvidia] and runs nothing, while the
    heuristic run at that moment spawns [nvidia-smi -L], which ends with
    status 9, and finds [intel]. *)
Lemma change_event_emits_memoized :
  ~ change_reruns_heuristic Sample.desktop.
Proof.
  intros H.
  specialize (H (steps Sample.desktop [Monitor; GetGpu]
                   (constructor Sample.desktop boot)) 0).
  assert (R : reachable Sample.desktop
                (steps Sample.desktop [Monitor; GetGpu]
                   (constructor Sample.desktop boot)))
    by apply (reachable_step _ GetGpu), (reachable_step _ Monitor),
         reachable_new.
  specialize (H R eq_refl). vm_compute in H. discriminate H.
Qed.

(** ** Switching: [switch] and [settings] *)

Section Switching.

Variable sys : System.

(** C3: [switch] does nothing visible when the privilege helper is absent,
    when the selector is absent, or when the selection is [gpu] already:
    the switch command is not spawned, no callback is called, no child is
    left in flight.  The checks come in that order: without a privilege
    helper or without a selector nothing at all is run, and only with both
    is the selection queried. *)
Theorem switch_without_effect this gpu callback w :
  Js.truthy (command this "sudo") = false \/
  Js.truthy (command this "select") = false \/
  fst (query sys this w) = gpu ->
  let w' := snd (switch sys this gpu callback w) in
  let asked :=
    Js.truthy (command this "sudo") && Js.truthy (command this "select") in
  w' = (if asked then snd (query sys this w) else w) /\
  pending w' = pending w /\
  trace w'
  = (trace w ++
     if asked
     then [Spawn (Js.split " " (select (_commands this) ++ " query"))]
     else [])%list.
Proof.
  intros H w' asked.
  assert (E : w' = if asked then snd (query sys this w) else w).
  { unfold w', asked, switch. cbv zeta.
    destruct (Js.truthy (command this "sudo")) eqn:S; cbn [negb andb];
      [|reflexivity].
    destruct (Js.truthy (command this "select")) eqn:T; cbn [negb andb];
      [|reflexivity].
    destruct H as [H|[H|H]]; try discriminate H.
    unfold bind. destruct (query sys this w) as [current w1].
    cbn [fst snd] in *.
    subst current. rewrite String.eqb_refl. reflexivity. }
  split; [exact E|]. rewrite E. clear E w'.
  unfold asked. clear asked.
  destruct (Js.truthy (command this "sudo")); cbn [andb];
    [|split; [reflexivity | symmetry; apply app_nil_r]].
  destruct (Js.truthy (command this "select")) eqn:T;
    [|split; [reflexivity | symmetry; apply app_nil_r]].
  rewrite (query_with_selector sys this w T). cbn. split; reflexivity.
Qed.

End Switching.

Lemma switch_without_effect_witness :
  let this := fst (constructor Sample.desktop boot) in
  snd (switch Sample.desktop this "intel" (Some 1) boot)
  = snd (query Sample.desktop this boot).
Proof.
  apply (switch_without_effect Sample.desktop
           (fst (constructor Sample.desktop boot)) "intel" (Some 1) boot).
  right; right. reflexivity.
Defined.

Section Completion.

Variable sys : System.

Lemma find_fresh id (l : list task) :
  Forall (fun t => task_id t < id) l ->
  find (fun t => Nat.eqb (task_id t) id) l = None.
Proof.
  induction 1 as [|t l H _ IH]; cbn; [reflexivity|].
  destruct (Nat.eqb_spec (task_id t) id); [lia|exact IH].
Qed.

Lemma find_app_found {A} (p : A -> bool) (l l' : list A) a :
  find p l = Some a -> find p (l ++ l') = Some a.
Proof.
  induction l as [|x l IH]; cbn; [discriminate|].
  destruct (p x); auto.
Qed.

Lemma find_app_fresh {A} (p : A -> bool) (l l' : list A) :
  find p l = None -> find p (l ++ l') = find p l'.
Proof.
  induction l as [|x l IH]; cbn; [reflexivity|].
  destruct (p x); [discriminate|exact IH].
Qed.

Lemma find_other id id' (l : list task) :
  id' <> id ->
  find (fun t => Nat.eqb (task_id t) id)
       (filter (fun t => negb (Nat.eqb (task_id t) id')) l)
  = find (fun t => Nat.eqb (task_id t) id) l.
Proof.
  intros N. induction l as [|t l IH]; cbn; [reflexivity|].
  destruct (Nat.eqb_spec (task_id t) id') as [e|n]; cbn.
  - destruct (Nat.eqb_spec (task_id t) id); [congruence|exact IH].
  - destruct (Nat.eqb (task_id t) id); [reflexivity|exact IH].
Qed.

Lemma in_flight_known id cb w :
  tasks_ok w -> in_flight id cb w -> id < next_task w.
Proof.
  intros (_ & F) (t & E & _). apply find_some in E. destruct E as (I & e).
  rewrite Forall_forall in F. specialize (F t I).
  apply Nat.eqb_eq in e. lia.
Qed.

Lemma in_flight_may_enqueue id cb w w' :
  tasks_ok w -> may_enqueue w w' -> in_flight id cb w -> in_flight id cb w'.
Proof.
  intros T (_ & _ & [(a & _)|(t' & _ & a & _)]) (t & E & C);
    exists t; rewrite a; split; auto using find_app_found.
Qed.

(** A child stays in flight, with its callback, until its own completion
    is delivered. *)
Lemma step_in_flight id cb c s :
  tasks_ok (snd s) -> (forall o, c <> Completed id o) ->
  in_flight id cb (snd s) -> in_flight id cb (snd (step sys c s)).
Proof.
  intros T N I.
  destruct (step_footprint sys c s) as [U L|M E|id' o C E|E|E].
  - eapply in_flight_may_enqueue; eauto using untouched_may_enqueue.
  - eapply in_flight_may_enqueue; eauto.
  - rewrite E. cbn [snd].
    destruct (completed_world id' o (snd s)) as (_ & _ & _ & a).
    destruct I as (t & F & K). exists t. rewrite a. split; [|exact K].
    rewrite find_other; [exact F|]. intros ->. apply (N o). exact C.
  - rewrite E. destruct (monitor_world (fst s) (snd s)) as (a & _).
    destruct I as (t & F & K). exists t. rewrite a. split; assumption.
  - rewrite E. destruct (unmonitor_world (fst s) (snd s)) as (a & _).
    destruct I as (t & F & K). exists t. rewrite a. split; assumption.
Qed.

Lemma steps_in_flight id cb cs s :
  tasks_ok (snd s) -> (forall o, ~ In (Completed id o) cs) ->
  in_flight id cb (snd s) -> in_flight id cb (snd (steps sys cs s)).
Proof.
  revert s. induction cs as [|c cs IH]; intros s T N I; cbn; [exact I|].
  apply IH.
  - apply step_tasks_ok, T.
  - intros o H. apply (N o). right. exact H.
  - apply step_in_flight; auto. intros o ->. apply (N o). left. reflexivity.
Qed.

(** What [switch] does when the three checks pass and the start works. *)
Lemma switch_launches this gpu callback w :
  Js.truthy (command this "sudo") = true ->
  Js.truthy (command this "select") = true ->
  fst (query sys this w) <> gpu ->
  let line := sudo (_commands this) ++ " " ++ select (_commands this)
              ++ " " ++ gpu in
  launch sys (clock (snd (query sys this w))) (Js.split " " line) = None ->
  let w' := snd (switch sys this gpu callback w) in
  pending w'
  = (pending w ++ [{| task_id := next_task w; task_stdin := line;
                      task_callback := Some (SwitchDone gpu callback) |}])%list
  /\
  trace w'
  = (trace (snd (query sys this w))
     ++ [Journal "Prime.Switch" ("switching to " ++ gpu);
         SpawnAsync (Js.split " " line)])%list.
Proof.
  intros S T Q line L w'.
  assert (E : w' = snd (enqueue line (Some (SwitchDone gpu callback))
                     (snd (spawned (SpawnAsync (Js.split " " line))
                        (snd (_log ("switching to " ++ gpu)
                           (snd (query sys this w)))))))).
  { unfold w', switch. cbv zeta. rewrite S, T. cbn [negb]. unfold bind.
    destruct (query sys this w) as [current w1]. cbn [fst snd] in *.
    destruct (String.eqb_spec current gpu) as [e|_]; [contradiction|].
    rewrite command_sudo, command_select. cbn [Js.to_string]. fold line.
    unfold _log, record, _shell_exec_async, bind, spawned.
    cbn [fst snd clock]. rewrite L. reflexivity. }
  rewrite E. destruct (query_untouched sys this w) as (a & b & _).
  cbn. rewrite a, b, <- app_assoc. split; reflexivity.
Qed.

(** C4: when [switch] has started the switch command, the end of that
    child, whenever the main loop delivers it, calls the callback (if one
    was given) with the target and [true] for status zero, [false] for any
    other status. *)
Theorem switch_reports_completion s gpu callback cs st out err :
  reachable sys s ->
  Js.truthy (command (fst s) "sudo") = true ->
  Js.truthy (command (fst s) "select") = true ->
  fst (query sys (fst s) (snd s)) <> gpu ->
  launch sys (clock (snd (query sys (fst s) (snd s))))
    (Js.split " " (sudo (_commands (fst s)) ++ " "
                   ++ select (_commands (fst s)) ++ " " ++ gpu)) = None ->
  let child := next_task (snd s) in
  (forall o, ~ In (Completed child o) cs) ->
  let s' := steps sys cs (step sys (DoSwitch gpu callback) s) in
  trace (snd (completed child (Exited st out err) (snd s')))
  = (trace (snd s')
     ++ [Journal "Prime.Switch"
           (if (st =? 0)%Z then "switched to " ++ gpu
            else "not switched to " ++ gpu ++ " (" ++ Js.trim err ++ ")")]
     ++ match callback with
        | Some f => [Called f (OfSwitch gpu (st =? 0)%Z)]
        | None => []
        end)%list.
Proof.
  intros R S T Q L child N s'.
  assert (I : in_flight child (SwitchDone gpu callback) (snd s')).
  { apply steps_in_flight.
    - apply step_tasks_ok, (reachable_tasks_ok sys), R.
    - exact N.
    - destruct s as [this w]. cbn [step fst snd] in *.
      destruct (switch_launches this gpu callback w S T Q L) as (P & _).
      eexists. rewrite P. split.
      + rewrite find_app_fresh.
        * cbn. rewrite Nat.eqb_refl. reflexivity.
        * apply find_fresh. apply (reachable_tasks_ok sys _ R).
      + reflexivity. }
  destruct I as (t & F & K).
  unfold completed, bind, dequeue. rewrite F, K.
  unfold invoke. cbn [status stderr].
  destruct (st =? 0)%Z; destruct callback as [f|];
    unfold bind, _log, record, ret; cbn;
    rewrite <- ?app_assoc; reflexivity.
Qed.

End Completion.

Lemma switch_reports_completion_witness :
  let s := constructor Sample.desktop boot in
  let s' := steps Sample.desktop [GetGpu; Settings]
              (step Sample.desktop (DoSwitch "nvidia" (Some 7)) s) in
  trace (snd (completed 0 (Exited 1 "" ("denied" ++ Sample.nl)) (snd s')))
  = (trace (snd s')
     ++ [Journal "Prime.Switch" "not switched to nvidia (denied)";
         Called 7 (OfSwitch "nvidia" false)])%list.
Proof.
  apply (switch_reports_completion Sample.desktop
           (constructor Sample.desktop boot) "nvidia" (Some 7)
           [GetGpu; Settings] 1 "" ("denied" ++ Sample.nl)).
  - apply reachable_new.
  - reflexivity.
  - reflexivity.
  - vm_compute. discriminate.
  - reflexivity.
  - intros o [H|[H|[]]]; discriminate H.
Defined.

(** ** Helpers that are not installed *)

Section MissingHelpers.

Variable sys : System.

Lemma _which_missing name w :
  missing sys name -> fst (_which sys name w) = "".
Proof.
  intros M. unfold _which, bind.
  pose proof (_shell_exec_result sys ("which " ++ name) w) as E.
  destruct (_shell_exec sys ("which " ++ name) w) as [exec w'].
  cbn [fst] in *. specialize (M (clock w)). subst exec.
  destruct (run sys (clock w) _) as [msg|st out err];
    unfold silent in M; cbn [stdout stderr ret fst].
  - rewrite M. reflexivity.
  - destruct M as (A & B). rewrite A, B. reflexivity.
Qed.

Lemma constructor_table w r :
  Forall (missing sys) (candidates r) ->
  own (_commands (fst (constructor sys w))) (role_key r) = Some "".
Proof.
  intros M. unfold constructor, bind.
  pose proof (fun H => _which_missing "pkexec" w H) as E1.
  destruct (_which sys "pkexec" w) as [pkexec w1].
  pose proof (fun H => _which_missing "gksudo" w1 H) as E2.
  destruct (Js.truthy_string pkexec) eqn:P.
  - cbn [ret].
    pose proof (fun H => _which_missing "prime-select" w1 H) as E3.
    destruct (_which sys "prime-select" w1) as [sel w3].
    pose proof (fun H => _which_missing "nvidia-smi" w3 H) as E4.
    destruct (_which sys "nvidia-smi" w3) as [man w4].
    pose proof (fun H => _which_missing "nvidia-settings" w4 H) as E5.
    destruct (_which sys "nvidia-settings" w4) as [set w5].
    cbn [fst] in *.
    destruct r; cbn in M |- *; inversion M as [|x l M1 M2]; subst;
      f_equal; auto.
  - destruct (_which sys "gksudo" w1) as [sudo w2].
    pose proof (fun H => _which_missing "prime-select" w2 H) as E3.
    destruct (_which sys "prime-select" w2) as [sel w3].
    pose proof (fun H => _which_missing "nvidia-smi" w3 H) as E4.
    destruct (_which sys "nvidia-smi" w3) as [man w4].
    pose proof (fun H => _which_missing "nvidia-settings" w4 H) as E5.
    destruct (_which sys "nvidia-settings" w4) as [set w5].
    cbn [fst] in *.
    destruct r; cbn in M |- *; inversion M as [|x l M1 M2]; subst;
      f_equal; auto.
    inversion M2; subst. auto.
Qed.

(** C5, amended: for a role whose every candidate is looked up in vain and
    in silence, the helper table holds the empty string (falsy, not
    [null]) throughout the session, and [switch] (for the privilege helper
    and the selector) and [settings] (for the settings helper) return
    without spawning anything or touching the world in any other way. *)
Theorem missing_helper_is_empty_string r s :
  reachable sys s ->
  Forall (missing sys) (candidates r) ->
  command (fst s) (role_key r) = Js.Str "" /\
  (r = SudoRunner \/ r = Selector ->
   forall gpu callback w, switch sys (fst s) gpu callback w = (tt, w)) /\
  (r = SettingsUi -> forall w, settings sys (fst s) w = (tt, w)).
Proof.
  intros R M.
  assert (O : own (_commands (fst s)) (role_key r) = Some "").
  { rewrite (reachable_commands sys s R). apply constructor_table, M. }
  assert (C : command (fst s) (role_key r) = Js.Str "").
  { unfold command, has_property, get_property. rewrite O. reflexivity. }
  split; [exact C|]. split.
  - intros [->| ->] gpu callback w; cbn [role_key] in C; unfold switch;
      cbv zeta; rewrite C; cbn [Js.truthy Js.truthy_string negb];
      [reflexivity|].
    destruct (negb (Js.truthy (command (fst s) "sudo"))); reflexivity.
  - intros -> w. cbn [role_key] in C. unfold settings. cbv zeta.
    rewrite C. reflexivity.
Qed.

End MissingHelpers.

Lemma bare_misses_everything name : missing Sample.bare name.
Proof. intros n. cbn. split; reflexivity. Qed.

Lemma missing_helper_is_empty_string_witness :
  command (fst (constructor Sample.bare boot)) "settings" = Js.Str "" /\
  settings Sample.bare (fst (constructor Sample.bare boot)) boot = (tt, boot).
Proof.
  assert (M : Forall (missing Sample.bare) (candidates SettingsUi))
    by (constructor; [apply bare_misses_everything | constructor]).
  destruct (missing_helper_is_empty_string Sample.bare SettingsUi
              (constructor Sample.bare boot) (reachable_new Sample.bare) M)
    as (C & _ & S).
  split; [exact C | exact (S eq_refl boot)].
Defined.

(** C5 fails as worded: on [Sample.bare] no candidate of any role is
    installed, and the helper table holds the empty string under
    [settings], not [null]. *)
Lemma missing_helper_is_not_null :
  Forall (missing Sample.bare) (candidates SettingsUi) /\
  command (fst (constructor Sample.bare boot)) (role_key SettingsUi)
  <> Js.Null.
Proof.
  split.
  - constructor; [apply bare_misses_everything | constructor].
  - vm_compute. discriminate.
Qed.

(** A [which] that reports a miss on its error stream is outside the
    amended claim: on [Sample.noisy] the report itself is stored as the
    settings command, and [settings] tries to start it. *)
Example noisy_which_is_stored :
  command (fst (constructor Sample.noisy boot)) "settings"
  = Js.Str "which: no nvidia-settings in (/usr/bin)" /\
  trace (snd (settings Sample.noisy (fst (constructor Sample.noisy boot))
                boot))
  = [SpawnAsync ["which:"; "no"; "nvidia-settings"; "in"; "(/usr/bin)"]].
Proof. split; reflexivity. Qed.

(** ** Watching and unwatching: [monitor] and [unmonitor] *)

Section Watching.

Variable sys : System.

Lemma monitor_watches this w :
  exists h, _listener (fst (monitor this w)) = Some h.
Proof.
  unfold monitor. destruct (_listener this) as [h|] eqn:E; cbn; eauto.
Qed.

(** C9: a second [monitor] in a row changes nothing and exactly one file
    monitor is alive afterwards; [unmonitor] on an unwatched instance
    changes nothing; [unmonitor] after [monitor] cancels the file monitor
    and leaves the instance unwatched, with no file monitor alive. *)
Theorem monitor_unmonitor_idempotent s :
  reachable sys s ->
  let once := monitor (fst s) (snd s) in
  let twice := monitor (fst once) (snd once) in
  let off := unmonitor (fst once) (snd once) in
  twice = once /\
  (exists h, _listener (fst twice) = Some h /\ active (snd twice) = [h]) /\
  (_listener (fst s) = None -> unmonitor (fst s) (snd s) = s) /\
  _listener (fst off) = None /\ active (snd off) = [] /\
  (exists h, _listener (fst once) = Some h /\
             trace (snd off) = (trace (snd once) ++ [Cancelled h])%list).
Proof.
  intros R once twice off.
  assert (M : monitors_ok once).
  { apply monitor_monitors_ok. rewrite <- surjective_pairing.
    apply (reachable_monitors_ok sys), R. }
  destruct (monitor_watches (fst s) (snd s)) as (h & L). fold once in L.
  assert (T : twice = once).
  { unfold twice, monitor at 1. rewrite L. cbn [ret].
    symmetry. apply surjective_pairing. }
  unfold monitors_ok in M. rewrite L in M.
  split; [exact T|]. split; [|split; [|split; [|split]]].
  - rewrite T. exists h. split; assumption.
  - intros N. unfold unmonitor. rewrite N. cbn [ret].
    symmetry. apply surjective_pairing.
  - unfold off, unmonitor. rewrite L. reflexivity.
  - unfold off, unmonitor. rewrite L. cbn. rewrite M. cbn.
    rewrite Nat.eqb_refl. reflexivity.
  - exists h. split; [exact L|]. unfold off, unmonitor. rewrite L. reflexivity.
Qed.

End Watching.

Lemma monitor_unmonitor_idempotent_witness :
  let s := constructor Sample.desktop boot in
  let once := monitor (fst s) (snd s) in
  monitor (fst once) (snd once) = once /\
  active (snd once) = [0] /\
  unmonitor (fst s) (snd s) = s /\
  active (snd (unmonitor (fst once) (snd once))) = [].
Proof.
  destruct (monitor_unmonitor_idempotent Sample.desktop
              (constructor Sample.desktop boot)
              (reachable_new Sample.desktop))
    as (T & _ & U & _ & A & _).
  split; [exact T | split; [reflexivity | split; [exact (U eq_refl) | exact A]]].
Defined.

(** ** What a session leaves in the trace *)

Section Traces.

Variable sys : System.

Lemma grows_refl w : grows w w.
Proof. exists []. split; [symmetry; apply app_nil_r | constructor]. Qed.

Lemma grows_trans w1 w2 w3 : grows w1 w2 -> grows w2 w3 -> grows w1 w3.
Proof.
  intros (es & E & F) (es' & E' & F'). exists (es ++ es')%list. split.
  - rewrite E', E, app_assoc. reflexivity.
  - apply Forall_app. split; assumption.
Qed.

Lemma grows_bind {A B} (m : IO A) (k : A -> IO B) w :
  grows w (snd (m w)) -> (forall a w', grows w' (snd (k a w'))) ->
  grows w (snd (bind m k w)).
Proof.
  intros H K. unfold bind. destruct (m w) as [a w'].
  eapply grows_trans; [exact H | apply K].
Qed.

Lemma record_grows e w : plain e -> grows w (snd (record e w)).
Proof. intros P. exists [e]. split; [reflexivity | repeat constructor; exact P]. Qed.

Lemma spawned_grows e w : plain e -> grows w (snd (spawned e w)).
Proof. intros P. exists [e]. split; [reflexivity | repeat constructor; exact P]. Qed.

Lemma enqueue_grows command cb w : grows w (snd (enqueue command cb w)).
Proof. exists []. split; [symmetry; apply app_nil_r | constructor]. Qed.

Lemma dequeue_grows id w : grows w (snd (dequeue id w)).
Proof. exists []. split; [symmetry; apply app_nil_r | constructor]. Qed.

Lemma _log_grows m w : grows w (snd (_log m w)).
Proof. apply record_grows. exact I. Qed.

Lemma _shell_exec_grows command w : grows w (snd (_shell_exec sys command w)).
Proof. rewrite _shell_exec_world. apply spawned_grows. exact I. Qed.

Lemma _which_grows command w : grows w (snd (_which sys command w)).
Proof.
  unfold _which. apply grows_bind; [apply _shell_exec_grows|].
  intros; apply grows_refl.
Qed.

Lemma invoke_grows cb e w : grows w (snd (invoke cb e w)).
Proof.
  destruct cb as [g cb|f]; [|apply record_grows; exact I].
  unfold invoke. apply grows_bind.
  - destruct (status e =? 0)%Z; apply _log_grows.
  - intros _ w'. destruct cb; [apply record_grows; exact I | apply grows_refl].
Qed.

Lemma _shell_exec_async_grows command cb w :
  grows w (snd (_shell_exec_async sys command cb w)).
Proof.
  unfold _shell_exec_async. apply grows_bind; [apply spawned_grows; exact I|].
  intros n w'. destruct (launch sys n _); [|apply enqueue_grows].
  destruct cb; [apply invoke_grows | apply grows_refl].
Qed.

Lemma _handle_async_shell_exec_grows o input cb w :
  grows w (snd (_handle_async_shell_exec o input cb w)).
Proof.
  destruct o as [msg|st out err]; [apply grows_refl|].
  destruct cb; [apply invoke_grows | apply grows_refl].
Qed.

Lemma completed_grows id o w : grows w (snd (completed id o w)).
Proof.
  unfold completed. apply grows_bind; [apply dequeue_grows|].
  intros [t|] w'; [|apply grows_refl].
  destruct o as [msg|st out err]; [apply grows_refl|].
  destruct (task_callback t); [apply invoke_grows | apply grows_refl].
Qed.

Lemma query_grows this w : grows w (snd (query sys this w)).
Proof.
  unfold query. destruct (Js.truthy (command this "select"));
    [|apply grows_refl].
  apply grows_bind; [apply _shell_exec_grows | intros; apply grows_refl].
Qed.

Lemma gpu_grows this w : grows w (snd (gpu sys this w)).
Proof.
  rewrite gpu_body. destruct (cached this); [apply grows_refl|].
  destruct (Js.truthy (command this "management")); [|apply grows_refl].
  pose proof (_shell_exec_grows
                (Js.to_string (command this "management") ++ " -L") w) as H.
  destruct (_shell_exec sys _ w). exact H.
Qed.

Lemma switch_grows this gpu cb w : grows w (snd (switch sys this gpu cb w)).
Proof.
  unfold switch. cbv zeta.
  destruct (negb (Js.truthy (command this "sudo"))); [apply grows_refl|].
  destruct (negb (Js.truthy (command this "select"))); [apply grows_refl|].
  apply grows_bind; [apply query_grows|]. intros current w'.
  destruct (String.eqb current gpu); [apply grows_refl|].
  apply grows_bind; [apply _log_grows|].
  intros; apply _shell_exec_async_grows.
Qed.

Lemma settings_grows this w : grows w (snd (settings sys this w)).
Proof.
  unfold settings. cbv zeta.
  destruct (negb (Js.truthy (command this "settings")));
    [apply grows_refl | apply _shell_exec_async_grows].
Qed.

Lemma monitor_grows this w : grows w (snd (monitor this w)).
Proof.
  unfold monitor. destruct (_listener this); [apply grows_refl|].
  exists [Watched (next_handle w) index; Connected (next_handle w) "changed"].
  split; [cbn; rewrite <- app_assoc; reflexivity|].
  repeat constructor.
Qed.

Lemma unmonitor_grows this w : grows w (snd (unmonitor this w)).
Proof.
  unfold unmonitor. destruct (_listener this) as [h|]; [|apply grows_refl].
  exists [Cancelled h]. split; [reflexivity | repeat constructor].
Qed.

Lemma event_ok_plain this e : plain e -> event_ok this e.
Proof. destruct e; cbn; auto; intros []. Qed.

(** What [_handle_listener] adds to the trace: the plain events of the
    read, then the signal with the value the read left memoized. *)
Lemma _handle_listener_trace this w :
  exists es, trace (snd (_handle_listener sys this w))
             = (trace w ++ es)%list /\
             Forall (event_ok (fst (_handle_listener sys this w))) es.
Proof.
  pose proof (gpu_grows this w) as (es & E & F).
  pose proof (gpu_stores sys this w) as C.
  unfold _handle_listener, bind.
  destruct (gpu sys this w) as [[g this'] w']. cbn [fst snd] in *.
  exists (es ++ [Emitted "gpu-change" g])%list. split.
  - unfold record, ret. cbn [fst snd trace]. rewrite E, app_assoc.
    reflexivity.
  - apply Forall_app. split.
    + eapply Forall_impl; [|exact F]. apply event_ok_plain.
    + repeat constructor. exact C.
Qed.

Lemma grows_event_ok this w w' :
  grows w w' ->
  exists es, trace w' = (trace w ++ es)%list /\ Forall (event_ok this) es.
Proof.
  intros (es & E & F). exists es. split; [exact E|].
  eapply Forall_impl; [|exact F]. apply event_ok_plain.
Qed.

Lemma step_trace c s :
  exists es, trace (snd (step sys c s)) = (trace (snd s) ++ es)%list /\
             Forall (event_ok (fst (step sys c s))) es.
Proof.
  destruct s as [this w]. destruct c; cbn [step fst snd];
    try (apply grows_event_ok;
         first [ apply grows_refl | apply query_grows | apply switch_grows
               | apply settings_grows | apply monitor_grows
               | apply unmonitor_grows | apply _log_grows | apply _which_grows
               | apply _shell_exec_grows | apply _shell_exec_async_grows
               | apply _handle_async_shell_exec_grows
               | apply completed_grows ]).
  - pose proof (gpu_grows this w) as G.
    destruct (gpu sys this w) as [r w']. apply grows_event_ok. exact G.
  - apply _handle_listener_trace.
  - unfold changed. destruct (existsb _ _).
    + apply _handle_listener_trace.
    + apply grows_event_ok, grows_refl.
Qed.

Lemma event_ok_step c s e :
  event_ok (fst s) e -> event_ok (fst (step sys c s)) e.
Proof.
  destruct e; cbn; auto. intros (S & C). split; [exact S|].
  apply step_cached. exact C.
Qed.

Lemma reachable_events_ok s :
  reachable sys s -> Forall (event_ok (fst s)) (trace (snd s)).
Proof.
  induction 1 as [|c s _ IH].
  - assert (G : grows boot (snd (constructor sys boot))).
    { unfold constructor.
      apply grows_bind; [apply _which_grows|]. intros pkexec w1.
      apply grows_bind.
      { destruct (Js.truthy_string pkexec);
          [apply grows_refl | apply _which_grows]. }
      intros sudo w2. apply grows_bind; [apply _which_grows|]. intros sel w3.
      apply grows_bind; [apply _which_grows|]. intros man w4.
      apply grows_bind; [apply _which_grows|]. intros; apply grows_refl. }
    destruct G as (es & E & F). rewrite E. cbn [boot trace app].
    eapply Forall_impl; [|exact F]. apply event_ok_plain.
  - destruct (step_trace c s) as (es & E & F). rewrite E.
    apply Forall_app. split; [|exact F].
    eapply Forall_impl; [|exact IH]. intros e. apply event_ok_step.
Qed.

End Traces.

(** ** Strings: what [trim] and [split] guarantee to the class *)

Section Strings.

Lemma trim_end_cons c r :
  Js.trim_end (String c r)
  = match Js.trim_end r with
    | EmptyString => if Js.is_space c then "" else String c ""
    | r' => String c r'
    end.
Proof. reflexivity. Qed.

Lemma trim_end_fixed s : Js.trim_end (Js.trim_end s) = Js.trim_end s.
Proof.
  induction s as [|c r IH]; [reflexivity|].
  rewrite trim_end_cons. destruct (Js.trim_end r) as [|a b] eqn:E.
  - destruct (Js.is_space c) eqn:S; [reflexivity|].
    rewrite trim_end_cons. cbn [Js.trim_end]. rewrite S. reflexivity.
  - rewrite trim_end_cons, IH. reflexivity.
Qed.

Lemma trim_start_head s :
  Js.trim_start s = "" \/
  exists c r, Js.trim_start s = String c r /\ Js.is_space c = false.
Proof.
  induction s as [|c r IH]; [left; reflexivity|].
  cbn [Js.trim_start]. destruct (Js.is_space c) eqn:S; [exact IH|].
  right. exists c, r. split; [reflexivity | exact S].
Qed.

Lemma trim_end_head c r :
  Js.is_space c = false -> exists r', Js.trim_end (String c r) = String c r'.
Proof.
  intros S. rewrite trim_end_cons. destruct (Js.trim_end r).
  - rewrite S. eauto.
  - eauto.
Qed.

Lemma trim_fixed s : Js.trim (Js.trim s) = Js.trim s.
Proof.
  unfold Js.trim.
  destruct (trim_start_head s) as [E|(c & r & E & S)]; rewrite E.
  - reflexivity.
  - destruct (trim_end_head c r S) as (r' & T). rewrite T.
    cbn [Js.trim_start]. rewrite S, <- T. apply trim_end_fixed.
Qed.

Lemma or_trimmed a b :
  Js.trim a = a -> Js.trim b = b -> Js.trim (Js.or a b) = Js.or a b.
Proof. unfold Js.or. destruct (Js.truthy_string a); auto. Qed.

Lemma split_cons_head c h t :
  String.concat " " (String c h :: t) = String c (String.concat " " (h :: t)).
Proof. destruct t; reflexivity. Qed.

Lemma split_nonempty s : Js.split " " s <> [].
Proof.
  destruct s as [|c r]; cbn; [discriminate|].
  destruct (Ascii.eqb c " "); [discriminate|].
  destruct (Js.split " " r); discriminate.
Qed.

Lemma split_join s : String.concat " " (Js.split " " s) = s.
Proof.
  induction s as [|c r IH]; [reflexivity|].
  cbn [Js.split]. destruct (Ascii.eqb_spec c " ") as [->|N].
  - pose proof (split_nonempty r) as E.
    destruct (Js.split " " r) as [|h t]; [contradiction|].
    cbn [String.concat]. cbn. f_equal. exact IH.
  - pose proof (split_nonempty r) as E.
    destruct (Js.split " " r) as [|h t]; [contradiction|].
    rewrite split_cons_head, IH. reflexivity.
Qed.

Lemma split_spaceless s : Forall spaceless (Js.split " " s).
Proof.
  induction s as [|c r IH]; [repeat constructor; intros []|].
  cbn [Js.split]. destruct (Ascii.eqb_spec c " ") as [->|N].
  - constructor; [intros []|exact IH].
  - pose proof (split_nonempty r) as E.
    destruct (Js.split " " r) as [|h t]; [contradiction|].
    inversion IH as [|x l H T]; subst. constructor; [|exact T].
    intros [e|I]; [exact (N e) | exact (H I)].
Qed.

End Strings.

(** ** Further properties of the runners and of the constructor *)

Section Lookup.

Variable sys : System.

Lemma _which_world command w :
  snd (_which sys command w)
  = snd (spawned (Spawn (Js.split " " ("which " ++ command))) w).
Proof.
  unfold _which, bind. rewrite <- (_shell_exec_world sys).
  destruct (_shell_exec sys _ w). reflexivity.
Qed.

Lemma _which_trimmed command w :
  Js.trim (fst (_which sys command w)) = fst (_which sys command w).
Proof.
  unfold _which, bind. destruct (_shell_exec sys _ w) as [exec w'].
  cbn [fst ret]. apply or_trimmed; apply trim_fixed.
Qed.

(** X1: the argument vector of a child is the command line cut at every
    space: no argument holds a space (so a helper whose path has one is
    never run under its own name), there is always a program name, and the
    arguments joined by spaces are the command line again. *)
Theorem _shell_exec_argv command w :
  exists argv,
    trace (snd (_shell_exec sys command w)) = (trace w ++ [Spawn argv])%list /\
    argv <> [] /\ Forall spaceless argv /\ String.concat " " argv = command.
Proof.
  exists (Js.split " " command). rewrite _shell_exec_world.
  split; [reflexivity|]. split; [apply split_nonempty|].
  split; [apply split_spaceless | apply split_join].
Qed.

(** X2: [_which] does not look at the exit status of [which]: it answers
    with the trimmed output whenever that is not blank, and otherwise with
    the trimmed error stream, be it the error text of [which] or of a
    failed spawn. *)
Theorem _which_prefers_stdout command w :
  (forall st out err,
     run sys (clock w) (Js.split " " ("which " ++ command))
     = Exited st out err ->
     Js.trim out <> "" -> fst (_which sys command w) = Js.trim out) /\
  (forall st out err,
     run sys (clock w) (Js.split " " ("which " ++ command))
     = Exited st out err ->
     Js.trim out = "" -> fst (_which sys command w) = Js.trim err) /\
  (forall msg,
     run sys (clock w) (Js.split " " ("which " ++ command)) = Threw msg ->
     fst (_which sys command w) = Js.trim msg).
Proof.
  assert (E : fst (_which sys command w)
              = let exec := fst (_shell_exec sys ("which " ++ command) w) in
                Js.or (Js.trim (stdout exec)) (Js.trim (stderr exec))).
  { unfold _which, bind. destruct (_shell_exec sys _ w). reflexivity. }
  rewrite E, _shell_exec_result. cbv zeta. repeat split.
  - intros st out err -> N. cbn [stdout stderr]. unfold Js.or.
    destruct (Js.trim out); [contradiction | reflexivity].
  - intros st out err -> N. cbn [stdout stderr]. rewrite N. reflexivity.
  - intros msg ->. reflexivity.
Qed.

(** X3: the constructor looks the helpers up in a fixed order, and [gksudo]
    only when the lookup of [pkexec] gave nothing; the privilege helper is
    the answer for [pkexec] when there is one, else the answer for
    [gksudo].  The new instance has nothing memoized and watches nothing. *)
Theorem constructor_lookup_order w :
  let pkexec := _which sys "pkexec" w in
  let this := fst (constructor sys w) in
  trace (snd (constructor sys w))
  = (trace w
     ++ [Spawn ["which"; "pkexec"]]
     ++ (if Js.truthy_string (fst pkexec) then []
         else [Spawn ["which"; "gksudo"]])
     ++ [Spawn ["which"; "prime-select"]; Spawn ["which"; "nvidia-smi"];
         Spawn ["which"; "nvidia-settings"]])%list /\
  sudo (_commands this)
  = (if Js.truthy_string (fst pkexec) then fst pkexec
     else fst (_which sys "gksudo" (snd pkexec))) /\
  _gpu this = None /\ _listener this = None.
Proof.
  intros pkexec this. subst this. unfold constructor, bind. fold pkexec.
  pose proof (_which_world "pkexec" w) as W1. fold pkexec in W1.
  destruct pkexec as [p w1]. cbn [fst snd] in *.
  destruct (Js.truthy_string p).
  - cbn [ret].
    pose proof (_which_world "prime-select" w1) as W3.
    destruct (_which sys "prime-select" w1) as [sel w3].
    pose proof (_which_world "nvidia-smi" w3) as W4.
    destruct (_which sys "nvidia-smi" w3) as [man w4].
    pose proof (_which_world "nvidia-settings" w4) as W5.
    destruct (_which sys "nvidia-settings" w4) as [set w5].
    cbn [fst snd ret _commands sudo _gpu _listener] in *.
    subst. cbn. rewrite <- !app_assoc. repeat split.
  - pose proof (_which_world "gksudo" w1) as W2.
    destruct (_which sys "gksudo" w1) as [g w2].
    pose proof (_which_world "prime-select" w2) as W3.
    destruct (_which sys "prime-select" w2) as [sel w3].
    pose proof (_which_world "nvidia-smi" w3) as W4.
    destruct (_which sys "nvidia-smi" w3) as [man w4].
    pose proof (_which_world "nvidia-settings" w4) as W5.
    destruct (_which sys "nvidia-settings" w4) as [set w5].
    cbn [fst snd ret _commands sudo _gpu _listener] in *.
    subst. cbn. rewrite <- !app_assoc. repeat split.
Qed.

Lemma constructor_entries w k v :
  own (_commands (fst (constructor sys w))) k = Some v ->
  exists name w', v = fst (_which sys name w').
Proof.
  unfold constructor, bind.
  destruct (_which sys "pkexec" w) as [p w1] eqn:E1.
  destruct (Js.truthy_string p).
  - cbn [ret].
    destruct (_which sys "prime-select" w1) as [sel w3] eqn:E3.
    destruct (_which sys "nvidia-smi" w3) as [man w4] eqn:E4.
    destruct (_which sys "nvidia-settings" w4) as [set w5] eqn:E5.
    cbn [fst ret _commands]. unfold own. cbn [sudo select management settings_ui].
    repeat (destruct (String.eqb k _); [intros [= <-]; eexists _, _;
      match goal with H : _which sys _ _ = (?v, _) |- ?v = _ =>
        rewrite H; reflexivity end|]).
    discriminate.
  - destruct (_which sys "gksudo" w1) as [g w2] eqn:E2.
    destruct (_which sys "prime-select" w2) as [sel w3] eqn:E3.
    destruct (_which sys "nvidia-smi" w3) as [man w4] eqn:E4.
    destruct (_which sys "nvidia-settings" w4) as [set w5] eqn:E5.
    cbn [fst ret _commands]. unfold own. cbn [sudo select management settings_ui].
    repeat (destruct (String.eqb k _); [intros [= <-]; eexists _, _;
      match goal with H : _which sys _ _ = (?v, _) |- ?v = _ =>
        rewrite H; reflexivity end|]).
    discriminate.
Qed.

(** X4: throughout a session every command of the helper table is a
    trimmed string: the line end [which] prints after a path never reaches
    a command line built from the table. *)
Theorem helper_table_is_trimmed s k v :
  reachable sys s ->
  own (_commands (fst s)) k = Some v -> Js.trim v = v.
Proof.
  intros R O. rewrite (reachable_commands sys s R) in O.
  destruct (constructor_entries boot k v O) as (name & w' & ->).
  apply _which_trimmed.
Qed.

(** X5: [query] never answers with the empty string, and its answer is
    trimmed. *)
Theorem query_is_never_empty this w :
  fst (query sys this w) <> "" /\
  Js.trim (fst (query sys this w)) = fst (query sys this w).
Proof.
  unfold query. destruct (Js.truthy (command this "select"));
    [|split; [discriminate | reflexivity]].
  unfold bind. destruct (_shell_exec sys _ w) as [exec w']. cbn [fst ret].
  split.
  - unfold Js.or.
    destruct (Js.trim (stdout exec)); cbn; [|discriminate].
    destruct (Js.trim (stderr exec)); cbn; discriminate.
  - apply or_trimmed; [apply or_trimmed; apply trim_fixed | reflexivity].
Qed.

End Lookup.

Lemma _which_prefers_stdout_witness :
  fst (_which Sample.desktop "pkexec" boot) = "/usr/bin/pkexec" /\
  fst (_which Sample.noisy "pkexec" boot) = "which: no pkexec in (/usr/bin)" /\
  fst (_which Sample.bare "pkexec"
         (snd (spawned (Spawn ["true"]) boot))) = "".
Proof.
  split; [|split].
  - apply (proj1 (_which_prefers_stdout Sample.desktop "pkexec" boot)
             0%Z ("/usr/bin/pkexec" ++ Sample.nl) "");
      [reflexivity | vm_compute; discriminate].
  - apply (proj1 (proj2 (_which_prefers_stdout Sample.noisy "pkexec" boot))
             1%Z "" ("which: no pkexec in (/usr/bin)" ++ Sample.nl));
      reflexivity.
  - apply (proj1 (proj2 (_which_prefers_stdout Sample.bare "pkexec"
                           (snd (spawned (Spawn ["true"]) boot))))
             1%Z "" ""); reflexivity.
Defined.

Lemma helper_table_is_trimmed_witness :
  Js.trim "/usr/bin/prime-select" = "/usr/bin/prime-select".
Proof.
  apply (helper_table_is_trimmed Sample.desktop
           (constructor Sample.desktop boot) "select").
  - apply reachable_new.
  - reflexivity.
Defined.

(** ** Further properties of the getters, of [switch] and of [settings] *)

Section Failures.

Variable sys : System.

(** X6: a management helper that cannot be started counts as a helper
    that ended with a non-zero status: the first read of [gpu] answers
    [intel] and memoizes it. *)
Theorem gpu_unstartable_manager_is_intel this w msg :
  cached this = None ->
  Js.truthy (command this "management") = true ->
  run sys (clock w) (Js.split " " (management (_commands this) ++ " -L"))
  = Threw msg ->
  fst (gpu sys this w) = ("intel", set_gpu this "intel").
Proof.
  intros C T R. rewrite gpu_body, C, T, command_management.
  cbn [Js.to_string].
  pose proof (_shell_exec_result sys
                (management (_commands this) ++ " -L") w) as E.
  rewrite R in E.
  destruct (_shell_exec sys _ w) as [exec w']. cbn [fst] in *.
  subst exec. reflexivity.
Qed.

(** X7: when the selector cannot be started, [query] answers with the
    trimmed error text of the spawn, and with [unknown] only if that text
    is blank. *)
Theorem query_unstartable_selector this w msg :
  Js.truthy (command this "select") = true ->
  run sys (clock w) (Js.split " " (select (_commands this) ++ " query"))
  = Threw msg ->
  fst (query sys this w)
  = (if Js.truthy_string (Js.trim msg) then Js.trim msg else "unknown").
Proof.
  intros T R. rewrite (query_with_selector sys this w T). cbv zeta.
  rewrite _shell_exec_result, R. cbn [fst stdout stderr].
  change (Js.trim "") with "". destruct (Js.trim msg); reflexivity.
Qed.

(** X8: when the three checks of [switch] pass and the switch command
    cannot be started, the failure is logged with the error text and the
    callback (if given) is called at once with [result: false]; no child
    is left in flight. *)
Theorem switch_start_failure this gpu callback w msg :
  Js.truthy (command this "sudo") = true ->
  Js.truthy (command this "select") = true ->
  fst (query sys this w) <> gpu ->
  let line := sudo (_commands this) ++ " " ++ select (_commands this)
              ++ " " ++ gpu in
  launch sys (clock (snd (query sys this w))) (Js.split " " line)
  = Some msg ->
  let w' := snd (switch sys this gpu callback w) in
  pending w' = pending w /\
  trace w'
  = (trace (snd (query sys this w))
     ++ [Journal "Prime.Switch" ("switching to " ++ gpu);
         SpawnAsync (Js.split " " line);
         Journal "Prime.Switch"
           ("not switched to " ++ gpu ++ " (" ++ Js.trim msg ++ ")")]
     ++ match callback with
        | Some f => [Called f (OfSwitch gpu false)]
        | None => []
        end)%list.
Proof.
  intros S T Q line L w'.
  assert (E : w' = snd (invoke (SwitchDone gpu callback)
                          {| status := (-1)%Z; stdin := line; stdout := "";
                             stderr := msg |}
                          (snd (spawned (SpawnAsync (Js.split " " line))
                             (snd (_log ("switching to " ++ gpu)
                                (snd (query sys this w)))))))).
  { unfold w', switch. cbv zeta. rewrite S, T. cbn [negb]. unfold bind.
    destruct (query sys this w) as [current w1]. cbn [fst snd] in *.
    destruct (String.eqb_spec current gpu) as [e|_]; [contradiction|].
    rewrite command_sudo, command_select. cbn [Js.to_string]. fold line.
    unfold _log, record, _shell_exec_async, bind, spawned.
    cbn [fst snd clock]. rewrite L. reflexivity. }
  rewrite E. destruct (query_untouched sys this w) as (a & _).
  unfold invoke. cbn [status stderr Z.eqb].
  destruct callback as [f|]; cbn; rewrite a, <- !app_assoc;
    split; reflexivity.
Qed.

(** X9: when the three checks of [switch] pass and the start works, the
    selection was queried once, the switch is announced in the journal, and
    exactly one child is started, with the argument vector of
    [<sudo> <select> <gpu>]; it is in flight under the next free identifier
    with the closure of [switch] as its callback, and nothing has been
    called yet. *)
Theorem switch_starts_one_child this gpu callback w :
  tasks_ok w ->
  Js.truthy (command this "sudo") = true ->
  Js.truthy (command this "select") = true ->
  fst (query sys this w) <> gpu ->
  let line := sudo (_commands this) ++ " " ++ select (_commands this)
              ++ " " ++ gpu in
  launch sys (clock (snd (query sys this w))) (Js.split " " line) = None ->
  let w' := snd (switch sys this gpu callback w) in
  in_flight (next_task w) (SwitchDone gpu callback) w' /\
  length (pending w') = S (length (pending w)) /\
  trace w'
  = (trace w
     ++ [Spawn (Js.split " " (select (_commands this) ++ " query"));
         Journal "Prime.Switch" ("switching to " ++ gpu);
         SpawnAsync (Js.split " " line)])%list.
Proof.
  intros K S T Q line L w'.
  destruct (switch_launches sys this gpu callback w S T Q L) as (P & E).
  fold line w' in P, E. split; [|split].
  - eexists. rewrite P. split.
    + rewrite find_app_fresh; [|apply find_fresh, K].
      cbn. rewrite Nat.eqb_refl. reflexivity.
    + reflexivity.
  - rewrite P, length_app. cbn. lia.
  - rewrite E, (query_with_selector sys this w T). cbn.
    rewrite <- app_assoc. reflexivity.
Qed.

Lemma filter_fresh id (l : list task) :
  Forall (fun t => task_id t < id) l ->
  filter (fun t => negb (Nat.eqb (task_id t) id)) l = l.
Proof.
  induction 1 as [|t l H _ IH]; cbn; [reflexivity|].
  destruct (Nat.eqb_spec (task_id t) id); [lia|]. cbn. rewrite IH.
  reflexivity.
Qed.

Lemma completed_unknown id o w :
  Forall (fun t => task_id t < id) (pending w) -> completed id o w = (tt, w).
Proof.
  intros F. unfold completed, bind, dequeue, ret.
  rewrite (find_fresh _ _ F), (filter_fresh _ _ F). destruct w. reflexivity.
Qed.

(** X10: [settings], with a settings helper, starts it and looks at
    nothing more: whether the start fails or works nothing is logged or
    called, and when the child ends, however it ends, the trace stays as it
    is and the child is simply gone. *)
Theorem settings_discards_result this w o :
  tasks_ok w ->
  Js.truthy (command this "settings") = true ->
  let w' := snd (settings sys this w) in
  let done := snd (completed (next_task w) o w') in
  trace w'
  = (trace w ++ [SpawnAsync (Js.split " " (settings_ui (_commands this)))])%list
  /\ trace done = trace w' /\ pending done = pending w.
Proof.
  intros (_ & F) T w' done. subst done w'. unfold settings. cbv zeta.
  rewrite T, command_settings. cbn [negb Js.to_string].
  unfold _shell_exec_async, bind, spawned. cbn [fst snd clock].
  destruct (launch sys (clock w) _) as [msg|].
  - unfold completed, bind, dequeue, ret. cbn [fst snd pending trace].
    rewrite (find_fresh _ _ F), (filter_fresh _ _ F). repeat split.
  - unfold completed, bind, dequeue, enqueue, ret.
    cbn [fst snd pending trace next_task].
    rewrite find_app_fresh by (apply find_fresh, F).
    rewrite filter_app, (filter_fresh _ _ F). cbn.
    rewrite Nat.eqb_refl. cbn. rewrite app_nil_r.
    destruct o; repeat split.
Qed.

(** X11: when the start works, [_shell_exec_async] calls nothing itself;
    the callback is called when the child ends, once, with the status and
    the streams of the child and the command line it was started with. *)
Theorem _shell_exec_async_calls_on_completion command f w st out err :
  tasks_ok w ->
  launch sys (clock w) (Js.split " " command) = None ->
  let w' := snd (_shell_exec_async sys command (Some (External f)) w) in
  let done := snd (completed (next_task w) (Exited st out err) w') in
  trace w' = (trace w ++ [SpawnAsync (Js.split " " command)])%list /\
  trace done
  = (trace w' ++ [Called f (OfResult {| status := st; stdin := command;
                                        stdout := out; stderr := err |})])%list
  /\ pending done = pending w /\
  (forall o, completed (next_task w) o done = (tt, done)).
Proof.
  intros (_ & F) L w' done.
  assert (E : completed (next_task w) (Exited st out err) w'
              = (tt,
                 {| clock := S (clock w);
                    trace := (trace w ++ [SpawnAsync (Js.split " " command)])
                             ++ [Called f (OfResult
                                   {| status := st; stdin := command;
                                      stdout := out; stderr := err |})];
                    pending := pending w; next_task := S (next_task w);
                    active := active w; next_handle := next_handle w |})).
  { unfold w', _shell_exec_async, bind, spawned. cbn [fst snd clock].
    rewrite L. unfold completed, bind, dequeue, enqueue, ret.
    cbn [fst snd pending trace next_task].
    rewrite find_app_fresh by (apply find_fresh, F).
    rewrite filter_app, (filter_fresh _ _ F). cbn. rewrite Nat.eqb_refl.
    cbn. rewrite app_nil_r. reflexivity. }
  assert (T : trace w' = (trace w ++ [SpawnAsync (Js.split " " command)])%list).
  { unfold w', _shell_exec_async, bind, spawned. cbn [fst snd clock].
    rewrite L. reflexivity. }
  unfold done. rewrite E, T. cbn [snd trace pending].
  repeat split. intros o. apply completed_unknown. exact F.
Qed.

End Failures.

Lemma gpu_unstartable_manager_is_intel_witness :
  let this := fst (constructor Sample.broken boot) in
  fst (gpu Sample.broken this boot) = ("intel", set_gpu this "intel").
Proof.
  apply (gpu_unstartable_manager_is_intel Sample.broken
           (fst (constructor Sample.broken boot)) boot
           "Error: Failed to execute child process"); reflexivity.
Defined.

Lemma query_unstartable_selector_witness :
  fst (query Sample.broken (fst (constructor Sample.broken boot)) boot)
  = "Error: Failed to execute child process".
Proof.
  apply (query_unstartable_selector Sample.broken
           (fst (constructor Sample.broken boot)) boot
           "Error: Failed to execute child process"); reflexivity.
Defined.

Lemma switch_start_failure_witness :
  let this := fst (constructor Sample.broken boot) in
  trace (snd (switch Sample.broken this "nvidia" (Some 2) boot))
  = [Spawn ["/usr/bin/prime-select"; "query"];
     Journal "Prime.Switch" "switching to nvidia";
     SpawnAsync ["/usr/bin/pkexec"; "/usr/bin/prime-select"; "nvidia"];
     Journal "Prime.Switch"
       "not switched to nvidia (Error: Failed to execute child process)";
     Called 2 (OfSwitch "nvidia" false)].
Proof.
  apply (switch_start_failure Sample.broken
           (fst (constructor Sample.broken boot)) "nvidia" (Some 2) boot
           "Error: Failed to execute child process").
  - reflexivity.
  - reflexivity.
  - vm_compute. discriminate.
  - reflexivity.
Defined.

Lemma boot_tasks_ok : tasks_ok boot.
Proof. split; constructor. Qed.

Lemma switch_starts_one_child_witness :
  let this := fst (constructor Sample.desktop boot) in
  trace (snd (switch Sample.desktop this "nvidia" None boot))
  = [Spawn ["/usr/bin/prime-select"; "query"];
     Journal "Prime.Switch" "switching to nvidia";
     SpawnAsync ["/usr/bin/pkexec"; "/usr/bin/prime-select"; "nvidia"]].
Proof.
  apply (switch_starts_one_child Sample.desktop
           (fst (constructor Sample.desktop boot)) "nvidia" None boot).
  - apply boot_tasks_ok.
  - reflexivity.
  - reflexivity.
  - vm_compute. discriminate.
  - reflexivity.
Defined.

Lemma settings_discards_result_witness :
  let this := fst (constructor Sample.desktop boot) in
  let w' := snd (settings Sample.desktop this boot) in
  trace w' = [SpawnAsync ["/usr/bin/nvidia-settings"]] /\
  trace (snd (completed 0 (Exited 1 "" "cannot open display") w')) = trace w'.
Proof.
  destruct (settings_discards_result Sample.desktop
              (fst (constructor Sample.desktop boot)) boot
              (Exited 1 "" "cannot open display") boot_tasks_ok eq_refl)
    as (A & B & _).
  split; [exact A | exact B].
Defined.

Lemma _shell_exec_async_calls_on_completion_witness :
  let w' := snd (_shell_exec_async Sample.desktop "ls -l" (Some (External 4))
                   boot) in
  trace w' = [SpawnAsync ["ls"; "-l"]] /\
  trace (snd (completed 0 (Exited 2 "" "no") w'))
  = [SpawnAsync ["ls"; "-l"];
     Called 4 (OfResult {| status := 2; stdin := "ls -l"; stdout := "";
                           stderr := "no" |})].
Proof.
  destruct (_shell_exec_async_calls_on_completion Sample.desktop "ls -l" 4
              boot 2 "" "no" boot_tasks_ok eq_refl) as (A & B & _).
  split; [exact A | exact B].
Defined.

(** ** Further properties of a session *)

Section SessionFacts.

Variable sys : System.

(** X12: at every moment of a session at most one file monitor is alive,
    and the one alive is the one [_listener] holds: [monitor] and
    [unmonitor] never leak a monitor, in whatever order they are called. *)
Theorem one_monitor_at_most s :
  reachable sys s ->
  length (active (snd s)) <= 1 /\
  (forall h, In h (active (snd s)) <-> _listener (fst s) = Some h).
Proof.
  intros R. pose proof (reachable_monitors_ok sys s R) as M.
  unfold monitors_ok in M. rewrite M.
  destruct (_listener (fst s)) as [h|]; cbn; split; auto.
  - intros h'. split; [intros [->|[]]; reflexivity|].
    intros [= ->]. left. reflexivity.
  - intros h. split; [intros [] | discriminate].
Qed.

(** X13: [destroy], at any moment of a session, leaves the instance
    unwatched with no file monitor alive; a file event delivered
    afterwards does nothing, and a second [destroy] does nothing. *)
Theorem destroy_releases_monitor s :
  reachable sys s ->
  let s' := destroy (fst s) (snd s) in
  _listener (fst s') = None /\ active (snd s') = [] /\
  (forall h, changed sys h (fst s') (snd s') = s') /\
  destroy (fst s') (snd s') = s'.
Proof.
  intros R s'.
  assert (M : monitors_ok s').
  { apply unmonitor_monitors_ok. rewrite <- surjective_pairing.
    apply (reachable_monitors_ok sys), R. }
  assert (L : _listener (fst s') = None).
  { unfold s', destroy, unmonitor.
    destruct (_listener (fst s)) eqn:E; [reflexivity | exact E]. }
  unfold monitors_ok in M. rewrite L in M.
  split; [exact L|]. split; [exact M|]. split.
  - intros h. unfold changed. rewrite M. cbn [existsb].
    symmetry. apply surjective_pairing.
  - unfold destroy, unmonitor. rewrite L. cbn [ret].
    symmetry. apply surjective_pairing.
Qed.

(** X14: every notification a session has emitted is [gpu-change] and
    carries the value now memoized in [_gpu], one of the three names; so
    all notifications of a session carry one and the same value. *)
Theorem notifications_carry_memoized_gpu s signal value :
  reachable sys s ->
  In (Emitted signal value) (trace (snd s)) ->
  signal = "gpu-change" /\ _gpu (fst s) = Some value /\
  In value gpu_names /\
  (forall signal' value',
     In (Emitted signal' value') (trace (snd s)) -> value' = value).
Proof.
  intros R I.
  pose proof (reachable_events_ok sys s R) as F.
  rewrite Forall_forall in F.
  destruct (F _ I) as (S & C). apply cached_Some in C.
  split; [exact S|]. split; [exact C|]. split.
  - destruct (reachable_gpu_ok sys s R) as [N|(g & G & E)]; [congruence|].
    replace value with g by congruence. exact G.
  - intros signal' value' I'. destruct (F _ I') as (_ & C').
    apply cached_Some in C'. congruence.
Qed.

(** X15: the only file a session ever puts a monitor on is
    [/etc/prime-discrete]. *)
Theorem only_index_is_watched s h path :
  reachable sys s ->
  In (Watched h path) (trace (snd s)) -> path = "/etc/prime-discrete".
Proof.
  intros R I.
  pose proof (reachable_events_ok sys s R) as F.
  rewrite Forall_forall in F. exact (F _ I).
Qed.

(** X16: no call changes the helper table: whatever the instance goes
    through, [command] answers for every name what it answered before. *)
Theorem helper_table_is_immutable cs s cmd :
  command (fst (steps sys cs s)) cmd = command (fst s) cmd.
Proof.
  revert s. induction cs as [|c cs IH]; intros s; cbn; [reflexivity|].
  change (fold_left (fun s c => step sys c s) cs (step sys c s))
    with (steps sys cs (step sys c s)).
  rewrite IH. unfold command. rewrite step_commands. reflexivity.
Qed.

End SessionFacts.

(** X17: for a name that is neither one of the four roles nor a member of
    [Object.prototype], [command] answers [null]. *)
Theorem command_null_for_foreign_name this cmd :
  ~ In cmd ["sudo"; "select"; "management"; "settings"] ->
  ~ In cmd Js.Object_prototype ->
  command this cmd = Js.Null.
Proof.
  intros N P. apply command_unknown_name.
  - unfold own.
    repeat match goal with
      | |- context [String.eqb cmd ?k] =>
          destruct (String.eqb_spec cmd k) as [->|_];
          [exfalso; apply N; cbn; tauto|]
      end.
    reflexivity.
  - unfold Js.inherited. destruct (existsb _ _) eqn:E; [|reflexivity].
    apply existsb_exists in E. destruct E as (k & I & E).
    apply String.eqb_eq in E. subst k. contradiction.
Qed.

Lemma command_null_for_foreign_name_witness :
  command (fst (constructor Sample.desktop boot)) "prime-select" = Js.Null.
Proof.
  apply command_null_for_foreign_name.
  - cbn. intros [H|[H|[H|[H|[]]]]]; discriminate H.
  - cbn. intuition discriminate.
Defined.

Lemma one_monitor_at_most_witness :
  let s := steps Sample.desktop [Monitor; Monitor; Unmonitor; Monitor]
             (constructor Sample.desktop boot) in
  length (active (snd s)) <= 1.
Proof.
  exact (proj1 (one_monitor_at_most Sample.desktop
                  (steps Sample.desktop [Monitor; Monitor; Unmonitor; Monitor]
                     (constructor Sample.desktop boot))
                  (reachable_steps Sample.desktop _ _
                     (reachable_new Sample.desktop)))).
Defined.

Lemma destroy_releases_monitor_witness :
  let s := steps Sample.desktop [Monitor; GetGpu]
             (constructor Sample.desktop boot) in
  active (snd (destroy (fst s) (snd s))) = [].
Proof.
  exact (proj1 (proj2 (destroy_releases_monitor Sample.desktop
                         (steps Sample.desktop [Monitor; GetGpu]
                            (constructor Sample.desktop boot))
                         (reachable_steps Sample.desktop _ _
                            (reachable_new Sample.desktop))))).
Defined.

Lemma notifications_carry_memoized_gpu_witness :
  let s := steps Sample.desktop [Monitor; Changed 0; GetQuery; Changed 0]
             (constructor Sample.desktop boot) in
  _gpu (fst s) = Some "nvidia".
Proof.
  refine (proj1 (proj2 (notifications_carry_memoized_gpu Sample.desktop
                          (steps Sample.desktop
                             [Monitor; Changed 0; GetQuery; Changed 0]
                             (constructor Sample.desktop boot))
                          "gpu-change" "nvidia"
                          (reachable_steps Sample.desktop _ _
                             (reachable_new Sample.desktop)) _))).
  vm_compute. tauto.
Defined.

Lemma only_index_is_watched_witness : index = "/etc/prime-discrete".
Proof.
  refine (only_index_is_watched Sample.desktop
            (steps Sample.desktop [Monitor] (constructor Sample.desktop boot))
            0 index
            (reachable_steps Sample.desktop _ _
               (reachable_new Sample.desktop)) _).
  vm_compute. tauto.
Defined.
